(** * Verification of the realtime client [SocketService] (src/lib/socket.ts)

    The development embeds the class [SocketService] of [src/lib/socket.ts]
    together with the part of the browser platform that it drives: WebSocket
    objects, EventSource objects, the timer queue and the JSON codec.  Each
    method of the class and each event handler it installs is a function on
    an explicit world state; the event loop is a partial step function.

    Not modelled: console output, the field [fallbackToPolling], which the
    class initialises and never reads, and the limits of the platform's
    resources (memory, stack depth).  Listeners are external code: the
    model has them return or throw, see [callback]. *)

From Stdlib Require Import ZArith NArith Ascii String List Bool Lia.
From Stdlib Require SpecFloat.
From stdpp Require Import gmap strings list.

Set Warnings "-register-all".

Local Open Scope string_scope.
Local Open Scope Z_scope.
Local Open Scope list_scope.

(** ** Data exchanged over the transports *)

(** A Number is an IEEE 754 binary64 value. *)
Definition number : Type := SpecFloat.spec_float.

Module Number.

Import SpecFloat.

Definition prec : Z := 53.
Definition emax : Z := 1024.

(** The Number nearest to [m * 10 ^ e], ties to even, with the sign [neg];
    the value that the platform gives to a decimal literal.  A literal of
    [10 ^ 309] or more is beyond the largest Number, and one below
    [10 ^ -324] is less than half the smallest. *)
Definition of_decimal (neg : bool) (m : N) (e : Z) : number :=
  match m with
  | N0 => S754_zero neg
  | Npos p =>
      if 309 <=? e then S754_infinity neg
      else if e + Z.of_N (N.size m) <=? -324 then S754_zero neg
      else if 0 <=? e then binary_round prec emax neg (p * Z.to_pos (10 ^ e)) 0
      else
        SFdiv prec emax (S754_finite neg p 0)
          (S754_finite false (Z.to_pos (10 ^ (- e))) 0)
  end.

Definition of_Z (n : Z) : number := binary_normalize prec emax n 0 false.

Definition eqb (x y : number) : bool :=
  match x, y with
  | S754_zero a, S754_zero b => Bool.eqb a b
  | S754_infinity a, S754_infinity b => Bool.eqb a b
  | S754_nan, S754_nan => true
  | S754_finite a m e, S754_finite b m' e' =>
      Bool.eqb a b && Pos.eqb m m' && Z.eqb e e'
  | _, _ => false
  end.

(** ToBoolean of a Number: false for [+0], [-0] and [NaN]. *)
Definition to_boolean (x : number) : bool :=
  match x with
  | S754_zero _ | S754_nan => false
  | _ => true
  end.

(** *** Number::toString

    The decimal digits [s], their count [k] and the exponent [n] are such
    that [s * 10 ^ (n - k)] is a decimal that the platform reads back as
    the same Number, with [k] as small as possible and, among those, [s]
    nearest to the value. *)

(** The value of a positive finite Number as a fraction. *)
Definition fraction_of (m : positive) (e : Z) : Z * Z :=
  if 0 <=? e then (Zpos m * 2 ^ e, 1) else (Zpos m, 2 ^ (- e)).

(** The [n] with [10 ^ (n - 1) <= num / den < 10 ^ n], searched from the
    given [n]. *)
Fixpoint magnitude (fuel : nat) (num den n : Z) : Z :=
  match fuel with
  | O => n
  | S fuel' =>
      if num <? den then magnitude fuel' (num * 10) den (n - 1)
      else if 10 * den <=? num then magnitude fuel' num (den * 10) (n + 1)
      else n
  end.

(** The integer part of [num / den / 10 ^ p]. *)
Definition scaled_floor (num den p : Z) : Z :=
  if 0 <=? p then num / (den * 10 ^ p) else (num * 10 ^ (- p)) / den.

(** Whether [num / den] is nearer to [s * 10 ^ p] than to
    [(s + 1) * 10 ^ p]; in the middle the even one of [s] and [s + 1]
    counts as nearer. *)
Definition nearer_to_lower (num den s p : Z) : bool :=
  let lhs := if 0 <=? p then 2 * num else 2 * num * 10 ^ (- p) in
  let rhs := if 0 <=? p then (2 * s + 1) * 10 ^ p * den else (2 * s + 1) * den in
  match lhs ?= rhs with
  | Lt => true
  | Eq => Z.even s
  | Gt => false
  end.

Fixpoint shortest (fuel : nat) (x : number) (num den n k : Z) : Z * Z :=
  let p := n - k in
  let lo := scaled_floor num den p in
  let hi := lo + 1 in
  let ok (s : Z) := eqb (of_decimal false (Z.to_N s) p) x in
  let pick (s : Z) := if s =? 10 ^ k then (10 ^ (k - 1), n + 1) else (s, n) in
  match fuel with
  | O => pick lo
  | S fuel' =>
      match ok lo, ok hi with
      | true, true => pick (if nearer_to_lower num den lo p then lo else hi)
      | true, false => pick lo
      | false, true => pick hi
      | false, false => shortest fuel' x num den n (k + 1)
      end
  end.

Fixpoint digits_of_pos (fuel : nat) (n : N) (acc : string) : string :=
  match fuel with
  | O => acc
  | S fuel' =>
      let acc' := String (ascii_of_N (48 + n mod 10)) acc in
      if (n / 10 =? 0)%N then acc' else digits_of_pos fuel' (n / 10) acc'
  end.

Definition digits (n : N) : string :=
  digits_of_pos (S (N.to_nat (N.log2 n))) n "".

Fixpoint zeros (n : nat) : string :=
  match n with
  | O => ""
  | S n' => String "0" (zeros n')
  end.

Fixpoint take (n : nat) (s : string) : string :=
  match n, s with
  | S n', String c s' => String c (take n' s')
  | _, _ => ""
  end.

Fixpoint drop (n : nat) (s : string) : string :=
  match n, s with
  | S n', String _ s' => drop n' s'
  | _, _ => s
  end.

(** The text of a positive finite Number from its digits and exponent. *)
Definition format (ds : string) (n : Z) : string :=
  let k := Z.of_nat (String.length ds) in
  if (k <=? n) && (n <=? 21) then ds +:+ zeros (Z.to_nat (n - k))
  else if (0 <? n) && (n <=? 21) then
    take (Z.to_nat n) ds +:+ "." +:+ drop (Z.to_nat n) ds
  else if (-6 <? n) && (n <=? 0) then "0." +:+ zeros (Z.to_nat (- n)) +:+ ds
  else
    let e := n - 1 in
    let exponent :=
      (if e <? 0 then "e-" else "e+") +:+ digits (Z.to_N (Z.abs e)) in
    if k =? 1 then ds +:+ exponent
    else take 1 ds +:+ "." +:+ drop 1 ds +:+ exponent.

Definition to_string (x : number) : string :=
  match x with
  | S754_nan => "NaN"
  | S754_zero _ => "0"
  | S754_infinity neg => if neg then "-Infinity" else "Infinity"
  | S754_finite neg m e =>
      let '(num, den) := fraction_of m e in
      let n := magnitude 800 num den 1 in
      let '(s, n') := shortest 17 (S754_finite false m e) num den n 1 in
      (if neg then "-" else "") +:+ format (digits (Z.to_N s)) n'
  end.

End Number.

Coercion Number.of_Z : Z >-> number.

(** Decoded message data.  An object is the list of its properties in the
    order in which the platform enumerates them. *)
Inductive value : Type :=
| VNull
| VBool (b : bool)
| VNum (n : number)
| VStr (s : string)
| VArr (items : list value)
| VObj (fields : list (string * value)).

(** ** Strings

    A string of the program is a sequence of UTF-16 code units.  It is held
    as the bytes of its UTF-8 encoding, in which a surrogate that has no
    partner is written with three bytes like any other code unit of its
    size, and a surrogate pair with the four bytes of the character it
    stands for.  The text of a frame comes out of the platform's UTF-8
    decoder and holds no surrogate without partner. *)
Module UTF16.

Definition is_high (u : N) : bool := ((55296 <=? u) && (u <=? 56319))%N.
Definition is_low (u : N) : bool := ((56320 <=? u) && (u <=? 57343))%N.

(** The character that a surrogate pair stands for. *)
Definition pair (h l : N) : N := (65536 + (h - 55296) * 1024 + (l - 56320))%N.

Definition utf8 (cp : N) : string :=
  if (cp <? 128)%N then String (ascii_of_N cp) ""
  else if (cp <? 2048)%N then
    String (ascii_of_N (192 + cp / 64))
      (String (ascii_of_N (128 + cp mod 64)) "")
  else if (cp <? 65536)%N then
    String (ascii_of_N (224 + cp / 4096))
      (String (ascii_of_N (128 + (cp / 64) mod 64))
         (String (ascii_of_N (128 + cp mod 64)) ""))
  else
    String (ascii_of_N (240 + cp / 262144))
      (String (ascii_of_N (128 + (cp / 4096) mod 64))
         (String (ascii_of_N (128 + (cp / 64) mod 64))
            (String (ascii_of_N (128 + cp mod 64)) ""))).

(** The bytes so far, with a high surrogate that is still waiting for its
    partner. *)
Definition flush (acc : string) (pending : option N) : string :=
  match pending with
  | Some h => acc +:+ utf8 h
  | None => acc
  end.

(** Appends the code unit [u]. *)
Definition push (acc : string) (pending : option N) (u : N)
  : string * option N :=
  match pending with
  | Some h =>
      if is_low u then (acc +:+ utf8 (pair h u), None)
      else if is_high u then (acc +:+ utf8 h, Some u)
      else (acc +:+ utf8 h +:+ utf8 u, None)
  | None => if is_high u then (acc, Some u) else (acc +:+ utf8 u, None)
  end.

End UTF16.

Module JSON.

(** *** Serialisation, after the platform's [JSON.stringify] *)

Definition hex_digit (n : N) : ascii :=
  ascii_of_N (if (n <? 10)%N then 48 + n else 87 + n).

Definition hex4 (u : N) : string :=
  String (hex_digit (u / 4096))
    (String (hex_digit ((u / 256) mod 16))
       (String (hex_digit ((u / 16) mod 16))
          (String (hex_digit (u mod 16)) ""))).

Definition dquote : ascii := ascii_of_N 34.

Definition quote_char (c : ascii) : string :=
  let n := N_of_ascii c in
  if (n =? 34)%N then String "\" (String dquote "")
  else if (n =? 92)%N then "\\"
  else if (n =? 8)%N then "\b"
  else if (n =? 12)%N then "\f"
  else if (n =? 10)%N then "\n"
  else if (n =? 13)%N then "\r"
  else if (n =? 9)%N then "\t"
  else if (n <? 32)%N then "\u" +:+ hex4 n
  else String c "".

(** The code unit of a surrogate without partner, from the three bytes that
    hold it. *)
Definition lone_surrogate (a b c : ascii) : option N :=
  let x := N_of_ascii a in
  let y := N_of_ascii b in
  let z := N_of_ascii c in
  if ((x =? 237) && (160 <=? y))%N
  then Some (53248 + (y mod 64) * 64 + z mod 64)%N
  else None.

Fixpoint quote_body (s : string) : string :=
  match s with
  | EmptyString => ""
  | String a rest =>
      match rest with
      | String b (String c rest') =>
          match lone_surrogate a b c with
          | Some u => "\u" +:+ hex4 u +:+ quote_body rest'
          | None => quote_char a +:+ quote_body rest
          end
      | _ => quote_char a +:+ quote_body rest
      end
  end.

Definition quote (s : string) : string :=
  String dquote (quote_body s +:+ String dquote "").

(** A Number that is not finite is written [null]. *)
Definition number_to_string (x : number) : string :=
  match x with
  | SpecFloat.S754_finite _ _ _ | SpecFloat.S754_zero _ => Number.to_string x
  | _ => "null"
  end.

Fixpoint join (sep : string) (parts : list string) : string :=
  match parts with
  | [] => ""
  | [p] => p
  | p :: rest => p +:+ sep +:+ join sep rest
  end.

Fixpoint stringify (v : value) : string :=
  match v with
  | VNull => "null"
  | VBool true => "true"
  | VBool false => "false"
  | VNum n => number_to_string n
  | VStr s => quote s
  | VArr items => "[" +:+ join "," (map stringify items) +:+ "]"
  | VObj fields =>
      "{" +:+
      join "," (map (fun kv => quote (fst kv) +:+ ":" +:+ stringify (snd kv)) fields)
      +:+ "}"
  end.

(** *** Parsing, after the platform's [JSON.parse]

    [None] stands for the [SyntaxError] that [JSON.parse] throws. *)

Definition is_ws (c : ascii) : bool :=
  let n := N_of_ascii c in
  ((n =? 32) || (n =? 9) || (n =? 10) || (n =? 13))%N.

Definition is_digit (c : ascii) : bool :=
  let n := N_of_ascii c in ((48 <=? n) && (n <=? 57))%N.

Fixpoint skip_ws (s : string) : string :=
  match s with
  | String c rest => if is_ws c then skip_ws rest else s
  | EmptyString => s
  end.

Fixpoint expect (lit s : string) : option string :=
  match lit, s with
  | EmptyString, _ => Some s
  | String a lit', String b s' =>
      if Ascii.eqb a b then expect lit' s' else None
  | String _ _, EmptyString => None
  end.

Definition hex_value (c : ascii) : option N :=
  let n := N_of_ascii c in
  if ((48 <=? n) && (n <=? 57))%N then Some (n - 48)%N
  else if ((97 <=? n) && (n <=? 102))%N then Some (n - 87)%N
  else if ((65 <=? n) && (n <=? 70))%N then Some (n - 55)%N
  else None.

Definition parse_hex4 (s : string) : option (N * string) :=
  match s with
  | String a (String b (String c (String d rest))) =>
      match hex_value a, hex_value b, hex_value c, hex_value d with
      | Some x, Some y, Some z, Some w =>
          Some (((x * 16 + y) * 16 + z) * 16 + w, rest)%N
      | _, _, _, _ => None
      end
  | _ => None
  end.

(** The characters after an opening quote, up to the closing quote.  A
    code unit written [\uXXXX] joins the one written before it when the two
    are a surrogate pair. *)
Fixpoint parse_string_body (s : string) (acc : string) (pending : option N)
  {struct s} : option (string * string) :=
  match s with
  | EmptyString => None
  | String c rest =>
      let n := N_of_ascii c in
      if (n =? 34)%N then Some (UTF16.flush acc pending, rest)
      else if (n <? 32)%N then None
      else if (n =? 92)%N then
        match rest with
        | String e rest' =>
            let m := N_of_ascii e in
            if (m =? 117)%N then
              match rest' with
              | String a (String b (String c' (String d rest''))) =>
                  match parse_hex4 rest' with
                  | Some (u, _) =>
                      let '(acc', pending') := UTF16.push acc pending u in
                      parse_string_body rest'' acc' pending'
                  | None => None
                  end
              | _ => None
              end
            else
              let plain (x : N) :=
                parse_string_body rest'
                  (UTF16.flush acc pending +:+ String (ascii_of_N x) "") None in
              if (m =? 34)%N then plain 34%N
              else if (m =? 92)%N then plain 92%N
              else if (m =? 47)%N then plain 47%N
              else if (m =? 98)%N then plain 8%N
              else if (m =? 102)%N then plain 12%N
              else if (m =? 110)%N then plain 10%N
              else if (m =? 114)%N then plain 13%N
              else if (m =? 116)%N then plain 9%N
              else None
        | EmptyString => None
        end
      else parse_string_body rest (UTF16.flush acc pending +:+ String c "") None
  end.

(** A run of digits: its value appended to [acc], and its length. *)
Fixpoint parse_digits (s : string) (acc : N) (count : Z) : N * Z * string :=
  match s with
  | String c rest =>
      if is_digit c
      then parse_digits rest (acc * 10 + (N_of_ascii c - 48))%N (count + 1)
      else (acc, count, s)
  | EmptyString => (acc, count, s)
  end.

Definition starts_with_digit (s : string) : bool :=
  match s with
  | String c _ => is_digit c
  | EmptyString => false
  end.

(** [. digits], when present: the mantissa with the digits appended and
    their count. *)
Definition parse_fraction (m : N) (s : string) : option (N * Z * string) :=
  match s with
  | String c rest =>
      if (N_of_ascii c =? 46)%N then
        if starts_with_digit rest then Some (parse_digits rest m 0) else None
      else Some (m, 0, s)
  | EmptyString => Some (m, 0, s)
  end.

(** [e] or [E], an optional sign and digits, when present. *)
Definition parse_exponent (s : string) : option (Z * string) :=
  match s with
  | String c rest =>
      if ((N_of_ascii c =? 101) || (N_of_ascii c =? 69))%N then
        let '(neg, rest') :=
          match rest with
          | String sg r =>
              if (N_of_ascii sg =? 45)%N then (true, r)
              else if (N_of_ascii sg =? 43)%N then (false, r)
              else (false, rest)
          | EmptyString => (false, rest)
          end in
        if starts_with_digit rest' then
          let '(e, _, s') := parse_digits rest' 0 0 in
          Some (if neg then - Z.of_N e else Z.of_N e, s')
        else None
      else Some (0, s)
  | EmptyString => Some (0, s)
  end.

(** An optional minus sign; a single zero or a run of digits that starts
    with a non-zero digit; an optional fraction; an optional exponent. *)
Definition parse_number (s : string) : option (number * string) :=
  let '(neg, s1) :=
    match s with
    | String c rest => if (N_of_ascii c =? 45)%N then (true, rest) else (false, s)
    | EmptyString => (false, s)
    end in
  match s1 with
  | String c rest =>
      if is_digit c then
        let '(m, _, s2) :=
          if (N_of_ascii c =? 48)%N then (0%N, 0, rest) else parse_digits s1 0 0 in
        '(m', places, s3) ← parse_fraction m s2;
        '(e, s4) ← parse_exponent s3;
        Some (Number.of_decimal neg m' (e - places), s4)
      else None
  | EmptyString => None
  end.

(** *** Properties of an object

    The platform enumerates the properties whose key is an array index
    first, in ascending order, and the others after them in the order in
    which they were created; a key that is defined again keeps its place
    and takes the new value. *)

(** The index that a key is, if it is the decimal text of an integer below
    [2 ^ 32 - 1] without sign or leading zero. *)
Definition array_index (key : string) : option N :=
  match key with
  | EmptyString => None
  | String c rest =>
      if is_digit c && (negb (N_of_ascii c =? 48)%N || String.eqb rest "") then
        let '(n, _, s') := parse_digits key 0 0 in
        if String.eqb s' "" && (n <? 4294967295)%N then Some n else None
      else None
  end.

Fixpoint define_plain (key : string) (v : value) (fields : list (string * value))
  : list (string * value) :=
  match fields with
  | [] => [(key, v)]
  | (k, v') :: rest =>
      if String.eqb k key then (key, v) :: rest
      else (k, v') :: define_plain key v rest
  end.

Fixpoint define_index (i : N) (key : string) (v : value)
  (fields : list (string * value)) : list (string * value) :=
  match fields with
  | [] => [(key, v)]
  | (k, v') :: rest =>
      match array_index k with
      | Some j =>
          if (j <? i)%N then (k, v') :: define_index i key v rest
          else if (j =? i)%N then (key, v) :: rest
          else (key, v) :: fields
      | None => (key, v) :: fields
      end
  end.

(** [CreateDataProperty]. *)
Definition define_property (fields : list (string * value))
  (kv : string * value) : list (string * value) :=
  match array_index (fst kv) with
  | Some i => define_index i (fst kv) (snd kv) fields
  | None => define_plain (fst kv) (snd kv) fields
  end.

Definition object_of (members : list (string * value)) : value :=
  VObj (fold_left define_property members []).

(** Recursive descent; [fuel] bounds the number of nested calls and of
    elements, [parse] supplies a bound from the length of the text. *)
Fixpoint parse_value (fuel : nat) (s : string) : option (value * string) :=
  match fuel with
  | O => None
  | S fuel' =>
      match skip_ws s with
      | EmptyString => None
      | String c rest =>
          let n := N_of_ascii c in
          if (n =? 110)%N then
            s' ← expect "ull" rest; Some (VNull, s')
          else if (n =? 116)%N then
            s' ← expect "rue" rest; Some (VBool true, s')
          else if (n =? 102)%N then
            s' ← expect "alse" rest; Some (VBool false, s')
          else if (n =? 34)%N then
            '(str, s') ← parse_string_body rest "" None; Some (VStr str, s')
          else if (n =? 91)%N then
            match skip_ws rest with
            | String c' rest' =>
                if (N_of_ascii c' =? 93)%N then Some (VArr [], rest')
                else
                  '(items, s') ← parse_items fuel' rest;
                  Some (VArr items, s')
            | EmptyString => None
            end
          else if (n =? 123)%N then
            match skip_ws rest with
            | String c' rest' =>
                if (N_of_ascii c' =? 125)%N then Some (VObj [], rest')
                else
                  '(members, s') ← parse_members fuel' rest;
                  Some (object_of members, s')
            | EmptyString => None
            end
          else
            '(x, s') ← parse_number (String c rest); Some (VNum x, s')
      end
  end
with parse_items (fuel : nat) (s : string) {struct fuel}
  : option (list value * string) :=
  match fuel with
  | O => None
  | S fuel' =>
      '(v, s1) ← parse_value fuel' s;
      match skip_ws s1 with
      | String c rest =>
          if (N_of_ascii c =? 93)%N then Some ([v], rest)
          else if (N_of_ascii c =? 44)%N then
            '(vs, s2) ← parse_items fuel' rest; Some (v :: vs, s2)
          else None
      | EmptyString => None
      end
  end
with parse_members (fuel : nat) (s : string) {struct fuel}
  : option (list (string * value) * string) :=
  match fuel with
  | O => None
  | S fuel' =>
      match skip_ws s with
      | String q rest =>
          if (N_of_ascii q =? 34)%N then
            '(key, s1) ← parse_string_body rest "" None;
            match skip_ws s1 with
            | String col s2 =>
                if (N_of_ascii col =? 58)%N then
                  '(v, s3) ← parse_value fuel' s2;
                  match skip_ws s3 with
                  | String c rest' =>
                      if (N_of_ascii c =? 125)%N then Some ([(key, v)], rest')
                      else if (N_of_ascii c =? 44)%N then
                        '(kvs, s4) ← parse_members fuel' rest';
                        Some ((key, v) :: kvs, s4)
                      else None
                  | EmptyString => None
                  end
                else None
            | EmptyString => None
            end
          else None
      | EmptyString => None
      end
  end.

Definition parse (text : string) : option value :=
  match parse_value (S (2 * String.length text)) text with
  | Some (v, rest) =>
      match skip_ws rest with
      | EmptyString => Some v
      | String _ _ => None
      end
  | None => None
  end.

End JSON.


(** ** JavaScript operators used by the handlers *)

(** Property read [v.key]; [None] is [undefined].  Reading a property of a
    primitive or of an array yields [undefined] for the keys used here.  A
    decoded object holds each key once; from a list that repeats a key the
    last occurrence is read. *)
Fixpoint lookup_field (key : string) (fields : list (string * value))
  : option value :=
  match fields with
  | [] => None
  | (k, v) :: rest =>
      match lookup_field key rest with
      | Some v' => Some v'
      | None => if String.eqb k key then Some v else None
      end
  end.

Definition get (v : value) (key : string) : option value :=
  match v with
  | VObj fields => lookup_field key fields
  | _ => None
  end.

(** ToBoolean. *)
Definition truthy (v : value) : bool :=
  match v with
  | VNull => false
  | VBool b => b
  | VNum n => Number.to_boolean n
  | VStr s => negb (String.eqb s "")
  | VArr _ | VObj _ => true
  end.

(** [a || b] on possibly undefined operands. *)
Definition js_or (a b : option value) : option value :=
  match a with
  | Some v => if truthy v then a else b
  | None => b
  end.

(** [s.replace(pat, rep)] with a string pattern: the first occurrence. *)
Fixpoint replace (pat rep s : string) : string :=
  match JSON.expect pat s with
  | Some rest => rep +:+ rest
  | None =>
      match s with
      | EmptyString => EmptyString
      | String c s' => String c (replace pat rep s')
      end
  end.

(** ** Configuration read at module load *)

(** [process.env] and the availability of the two transport constructors.
    An unset variable is the empty string.  A constructor that is not
    available throws, as [new WebSocket] does on a URL it rejects. *)
Record environment : Type := {
  NODE_ENV : string;
  NEXT_PUBLIC_SOCKET_URL : string;
  WebSocket_available : bool;
  EventSource_available : bool }.

Definition getSocketBaseUrl (env : environment) : string :=
  if String.eqb (NEXT_PUBLIC_SOCKET_URL env) ""
  then "https://hotel-backend-5kcn.onrender.com"
  else NEXT_PUBLIC_SOCKET_URL env.

Definition SOCKET_URL (env : environment) : string := getSocketBaseUrl env.

Definition IS_PRODUCTION (env : environment) : bool :=
  String.eqb (NODE_ENV env) "production".

(** ** Platform objects *)

Inductive ws_readyState : Type := WS_CONNECTING | WS_OPEN | WS_CLOSING | WS_CLOSED.

Inductive es_readyState : Type := ES_CONNECTING | ES_OPEN | ES_CLOSED.

Definition es_code (r : es_readyState) : Z :=
  match r with ES_CONNECTING => 0 | ES_OPEN => 1 | ES_CLOSED => 2 end.

(** A WebSocket created by [connectWebSocket].  [ws_connectionTimeout] is the
    timer handle that the handlers installed on this socket close over;
    [ws_close_fired] records that the platform has dispatched its close
    event, after which the socket raises no further event. *)
Record WebSocket : Type := {
  ws_url : string;
  ws_state : ws_readyState;
  ws_close_fired : bool;
  ws_connectionTimeout : nat }.

(** An EventSource created by [connectSSE]; [es_hotelId] is the topic that
    its handlers close over. *)
Record EventSource : Type := {
  es_url : string;
  es_hotelId : string;
  es_state : es_readyState }.

(** The three closures handed to [setTimeout]. *)
Inductive task : Type :=
| ConnectionTimeout
| ReconnectWebSocket
| RetrySSE (hotelId : string).

Record timer : Type := {
  timer_id : nat;
  timer_due : Z;
  timer_task : task }.

(** ** Listeners *)

(** A listener is external code.  The model records each invocation and
    whether the listener returns or throws.  A listener that calls back
    into the service while a dispatch is in progress ([off], [disconnect]
    and the like, which act on the array that [forEach] is walking or on
    the map it was taken from), or that changes the message it is given, is
    outside the model: what is stated about a dispatch is stated for
    listeners that do neither.  Two listeners are the same reference
    exactly when they are equal. *)
Inductive outcome : Type := Returns | Throws.

Record callback : Type := {
  cb_id : nat;
  cb_outcome : outcome }.

#[global] Instance outcome_eq_dec : EqDecision outcome.
Proof. solve_decision. Defined.

#[global] Instance callback_eq_dec : EqDecision callback.
Proof. solve_decision. Defined.

(** ** The service instance *)

Record SocketService : Type := {
  socket : option nat;
  isConnected : bool;
  eventListeners : gmap string (list callback);
  reconnectAttempts : nat;
  reconnectTimer : option nat;
  pollingInterval : option nat;
  sseConnections : gmap string nat;
  useSSE : bool }.

Definition maxReconnectAttempts : nat := 2.
Definition reconnectInterval : Z := 1000.

(** The whole state: the service, the objects it has created, the pending
    timers, the clock, the listener invocations made so far and the frames
    handed to an open WebSocket. *)
Record world : Type := {
  svc : SocketService;
  sockets : list WebSocket;
  streams : list EventSource;
  timers : list timer;
  next_timer : nat;
  now : Z;
  calls : list (callback * value);
  wire : list (nat * string) }.

Definition new_SocketService : SocketService :=
  {| socket := None; isConnected := false; eventListeners := ∅;
     reconnectAttempts := 0; reconnectTimer := None; pollingInterval := None;
     sseConnections := ∅; useSSE := false |}.

Definition initial : world :=
  {| svc := new_SocketService; sockets := []; streams := []; timers := [];
     next_timer := 1; now := 0; calls := []; wire := [] |}.

(** *** Field assignment *)

Definition set_socket (x : option nat) (s : SocketService) : SocketService :=
  {| socket := x; isConnected := isConnected s;
     eventListeners := eventListeners s;
     reconnectAttempts := reconnectAttempts s;
     reconnectTimer := reconnectTimer s; pollingInterval := pollingInterval s;
     sseConnections := sseConnections s; useSSE := useSSE s |}.

Definition set_isConnected (x : bool) (s : SocketService) : SocketService :=
  {| socket := socket s; isConnected := x;
     eventListeners := eventListeners s;
     reconnectAttempts := reconnectAttempts s;
     reconnectTimer := reconnectTimer s; pollingInterval := pollingInterval s;
     sseConnections := sseConnections s; useSSE := useSSE s |}.

Definition set_eventListeners (x : gmap string (list callback))
  (s : SocketService) : SocketService :=
  {| socket := socket s; isConnected := isConnected s;
     eventListeners := x;
     reconnectAttempts := reconnectAttempts s;
     reconnectTimer := reconnectTimer s; pollingInterval := pollingInterval s;
     sseConnections := sseConnections s; useSSE := useSSE s |}.

Definition set_reconnectAttempts (x : nat) (s : SocketService) : SocketService :=
  {| socket := socket s; isConnected := isConnected s;
     eventListeners := eventListeners s;
     reconnectAttempts := x;
     reconnectTimer := reconnectTimer s; pollingInterval := pollingInterval s;
     sseConnections := sseConnections s; useSSE := useSSE s |}.

Definition set_reconnectTimer (x : option nat) (s : SocketService) : SocketService :=
  {| socket := socket s; isConnected := isConnected s;
     eventListeners := eventListeners s;
     reconnectAttempts := reconnectAttempts s;
     reconnectTimer := x; pollingInterval := pollingInterval s;
     sseConnections := sseConnections s; useSSE := useSSE s |}.

Definition set_pollingInterval (x : option nat) (s : SocketService) : SocketService :=
  {| socket := socket s; isConnected := isConnected s;
     eventListeners := eventListeners s;
     reconnectAttempts := reconnectAttempts s;
     reconnectTimer := reconnectTimer s; pollingInterval := x;
     sseConnections := sseConnections s; useSSE := useSSE s |}.

Definition set_sseConnections (x : gmap string nat) (s : SocketService)
  : SocketService :=
  {| socket := socket s; isConnected := isConnected s;
     eventListeners := eventListeners s;
     reconnectAttempts := reconnectAttempts s;
     reconnectTimer := reconnectTimer s; pollingInterval := pollingInterval s;
     sseConnections := x; useSSE := useSSE s |}.

Definition set_useSSE (x : bool) (s : SocketService) : SocketService :=
  {| socket := socket s; isConnected := isConnected s;
     eventListeners := eventListeners s;
     reconnectAttempts := reconnectAttempts s;
     reconnectTimer := reconnectTimer s; pollingInterval := pollingInterval s;
     sseConnections := sseConnections s; useSSE := x |}.

(** [this.f = ...] inside a method. *)
Definition this (f : SocketService -> SocketService) (w : world) : world :=
  {| svc := f (svc w); sockets := sockets w; streams := streams w;
     timers := timers w; next_timer := next_timer w; now := now w;
     calls := calls w; wire := wire w |}.

Definition set_sockets (x : list WebSocket) (w : world) : world :=
  {| svc := svc w; sockets := x; streams := streams w;
     timers := timers w; next_timer := next_timer w; now := now w;
     calls := calls w; wire := wire w |}.

Definition set_streams (x : list EventSource) (w : world) : world :=
  {| svc := svc w; sockets := sockets w; streams := x;
     timers := timers w; next_timer := next_timer w; now := now w;
     calls := calls w; wire := wire w |}.

Definition set_timers (x : list timer) (w : world) : world :=
  {| svc := svc w; sockets := sockets w; streams := streams w;
     timers := x; next_timer := next_timer w; now := now w;
     calls := calls w; wire := wire w |}.

Definition set_next_timer (x : nat) (w : world) : world :=
  {| svc := svc w; sockets := sockets w; streams := streams w;
     timers := timers w; next_timer := x; now := now w;
     calls := calls w; wire := wire w |}.

Definition set_now (x : Z) (w : world) : world :=
  {| svc := svc w; sockets := sockets w; streams := streams w;
     timers := timers w; next_timer := next_timer w; now := x;
     calls := calls w; wire := wire w |}.

Definition set_calls (x : list (callback * value)) (w : world) : world :=
  {| svc := svc w; sockets := sockets w; streams := streams w;
     timers := timers w; next_timer := next_timer w; now := now w;
     calls := x; wire := wire w |}.

Definition set_wire (x : list (nat * string)) (w : world) : world :=
  {| svc := svc w; sockets := sockets w; streams := streams w;
     timers := timers w; next_timer := next_timer w; now := now w;
     calls := calls w; wire := x |}.

(** ** Platform operations *)

(** What a call hands back to its caller: a normal return or an exception. *)
Inductive completion : Type := Normal | Thrown (name : string).

Definition setTimeout (t : task) (delay : Z) (w : world) : nat * world :=
  let id := next_timer w in
  (id,
   set_next_timer (S id)
     (set_timers
        (timers w ++ [{| timer_id := id; timer_due := now w + delay; timer_task := t |}])
        w)).

Definition clearTimeout (id : nat) (w : world) : world :=
  set_timers (List.filter (fun t => negb (Nat.eqb (timer_id t) id)) (timers w)) w.

(** [socket.close()]: a socket that is connecting or open starts closing;
    the close event is dispatched later by the platform. *)
Definition WebSocket_close (id : nat) (w : world) : world :=
  set_sockets
    (alter (fun s =>
       {| ws_url := ws_url s;
          ws_state := match ws_state s with
                      | WS_CONNECTING | WS_OPEN => WS_CLOSING
                      | st => st
                      end;
          ws_close_fired := ws_close_fired s;
          ws_connectionTimeout := ws_connectionTimeout s |}) id (sockets w))
    w.

(** [socket.send(frame)]: throws on a socket that is still connecting, puts
    the frame on the wire of an open socket, discards it otherwise. *)
Definition WebSocket_send (id : nat) (frame : string) (w : world)
  : world * completion :=
  match sockets w !! id with
  | Some s =>
      match ws_state s with
      | WS_CONNECTING => (w, Thrown "InvalidStateError")
      | WS_OPEN => (set_wire (wire w ++ [(id, frame)]) w, Normal)
      | WS_CLOSING | WS_CLOSED => (w, Normal)
      end
  | None => (w, Thrown "TypeError")
  end.

Definition set_ws_state (st : ws_readyState) (fired : bool) (id : nat)
  (w : world) : world :=
  set_sockets
    (alter (fun s =>
       {| ws_url := ws_url s; ws_state := st; ws_close_fired := fired;
          ws_connectionTimeout := ws_connectionTimeout s |}) id (sockets w))
    w.

Definition set_es_state (st : es_readyState) (id : nat) (w : world) : world :=
  set_streams
    (alter (fun e =>
       {| es_url := es_url e; es_hotelId := es_hotelId e; es_state := st |})
       id (streams w))
    w.

(** [eventSource.close()]. *)
Definition EventSource_close (id : nat) (w : world) : world :=
  set_es_state ES_CLOSED id w.

(** ** Methods of [SocketService] *)

(** [if (this.socket) { this.socket.close(); this.socket = null; }] *)
Definition closeSocket (w : world) : world :=
  match socket (svc w) with
  | Some id => this (set_socket None) (WebSocket_close id w)
  | None => w
  end.

(** [if (this.reconnectTimer) { clearTimeout(this.reconnectTimer);
    this.reconnectTimer = null; }] *)
Definition clearReconnectTimer (w : world) : world :=
  match reconnectTimer (svc w) with
  | Some t => this (set_reconnectTimer None) (clearTimeout t w)
  | None => w
  end.

(** [if (this.pollingInterval) { clearInterval(this.pollingInterval);
    this.pollingInterval = null; }] *)
Definition clearPollingInterval (w : world) : world :=
  match pollingInterval (svc w) with
  | Some t => this (set_pollingInterval None) (clearTimeout t w)
  | None => w
  end.

(** [this.sseConnections.forEach(eventSource => eventSource.close())] *)
Definition closeStreams (w : world) : world :=
  map_fold (fun _ id acc => EventSource_close id acc) w (sseConnections (svc w)).

Definition switchToSSE (w : world) : world :=
  let w := this (set_useSSE true) w in
  let w := this (set_isConnected false) w in
  let w := this (set_reconnectAttempts 0) w in
  let w := closeSocket w in
  clearReconnectTimer w.

(** The body of the [try] block up to the point where the handlers are
    installed; the handlers themselves follow as separate functions that
    take the socket they were installed on. *)
Definition connectWebSocket (env : environment) (w : world) : world :=
  let wsUrl :=
    replace "http://" "ws://" (replace "https://" "wss://" (SOCKET_URL env))
    +:+ "/ws" in
  if WebSocket_available env then
    let id := length (sockets w) in
    let connectionTimeout := next_timer w in
    let w :=
      set_sockets
        (sockets w ++
         [{| ws_url := wsUrl; ws_state := WS_CONNECTING;
             ws_close_fired := false;
             ws_connectionTimeout := connectionTimeout |}]) w in
    let w := this (set_socket (Some id)) w in
    snd (setTimeout ConnectionTimeout 3000 w)
  else
    this (set_isConnected false) w.

(** The closure passed to [setTimeout] in [connectWebSocket]. *)
Definition connectionTimeout_fired (w : world) : world :=
  match socket (svc w) with
  | Some id =>
      match sockets w !! id with
      | Some s =>
          match ws_state s with
          | WS_CONNECTING => switchToSSE (WebSocket_close id w)
          | _ => w
          end
      | None => w
      end
  | None => w
  end.

Definition attemptReconnect (w : world) : world :=
  if useSSE (svc w) then w
  else if (maxReconnectAttempts <=? reconnectAttempts (svc w))%nat then
    switchToSSE w
  else
    let w := this (fun s => set_reconnectAttempts (S (reconnectAttempts s)) s) w in
    let '(t, w) := setTimeout ReconnectWebSocket reconnectInterval w in
    this (set_reconnectTimer (Some t)) w.

Definition socket_onopen (connectionTimeout : nat) (w : world) : world :=
  let w := this (set_isConnected true) w in
  let w := this (set_reconnectAttempts 0) w in
  let w := this (set_useSSE false) w in
  let w := clearTimeout connectionTimeout w in
  clearReconnectTimer w.

Definition socket_onclose (connectionTimeout : nat) (code : Z) (w : world)
  : world :=
  let w := this (set_isConnected false) w in
  let w := clearTimeout connectionTimeout w in
  if code =? 1006 then switchToSSE w else attemptReconnect w.

Definition socket_onerror (connectionTimeout : nat) (w : world) : world :=
  let w := this (set_isConnected false) w in
  let w := clearTimeout connectionTimeout w in
  if useSSE (svc w) then w else switchToSSE w.

(** [listeners.forEach(callback => callback(arg))]: the listeners are called
    in order; the first one that throws ends the loop. *)
Fixpoint forEach (listeners : list callback) (arg : value)
  (log : list (callback * value)) : list (callback * value) * outcome :=
  match listeners with
  | [] => (log, Returns)
  | c :: rest =>
      let log := log ++ [(c, arg)] in
      match cb_outcome c with
      | Throws => (log, Throws)
      | Returns => forEach rest arg log
      end
  end.

(** [data.event || data.type] *)
Definition eventName_of (data : value) : option value :=
  js_or (get data "event") (get data "type").

(** [data.data || data] *)
Definition argument_of (data : value) : value :=
  match js_or (get data "data") (Some data) with
  | Some v => v
  | None => data
  end.

(** The body shared by [socket.onmessage] and [eventSource.onmessage]; the
    two closures differ only in the text they log.  Whatever is thrown
    inside the [try] block, by [JSON.parse], by reading a property of
    [null] or by a listener, is caught and logged. *)
Definition onmessage (raw : string) (w : world) : world :=
  match JSON.parse raw with
  | None => w
  | Some VNull => w
  | Some data =>
      match eventName_of data with
      | Some (VStr eventName) =>
          match eventListeners (svc w) !! eventName with
          | Some listeners =>
              set_calls (fst (forEach listeners (argument_of data) (calls w))) w
          | None => w
          end
      | _ => w
      end
  end.

Definition socket_onmessage : string -> world -> world := onmessage.
Definition eventSource_onmessage : string -> world -> world := onmessage.

Definition connectSSE (env : environment) (hotelId : string) (w : world)
  : world :=
  match sseConnections (svc w) !! hotelId with
  | Some _ => w
  | None =>
      let sseUrl := SOCKET_URL env +:+ "/api/events/" +:+ hotelId in
      if EventSource_available env then
        let id := length (streams w) in
        let w :=
          set_streams
            (streams w ++
             [{| es_url := sseUrl; es_hotelId := hotelId;
                 es_state := ES_CONNECTING |}]) w in
        this (fun s => set_sseConnections (<[hotelId := id]> (sseConnections s)) s) w
      else w
  end.

Definition eventSource_onopen (w : world) : world :=
  this (set_isConnected true) w.

(** The closure passed to [setTimeout] in [eventSource.onerror]. *)
Definition retrySSE_fired (env : environment) (hotelId : string) (w : world)
  : world :=
  if useSSE (svc w) then
    match sseConnections (svc w) !! hotelId with
    | None =>
        let w := this (fun s => set_reconnectAttempts (S (reconnectAttempts s)) s) w in
        if (reconnectAttempts (svc w) <? maxReconnectAttempts)%nat
        then connectSSE env hotelId w
        else w
    | Some _ => w
    end
  else w.

Definition retryDelay (attempts : nat) : Z :=
  Z.min (5000 * 2 ^ Z.of_nat attempts) 30000.

(** [eventSource.onerror]; [id] is the stream the handler was installed on
    and [hotelId] the topic it closes over. *)
Definition eventSource_onerror (id : nat) (hotelId : string) (w : world)
  : world :=
  let w := this (fun s => set_sseConnections (delete hotelId (sseConnections s)) s) w in
  match streams w !! id with
  | Some e =>
      if es_code (es_state e) =? 2 then w
      else snd (setTimeout (RetrySSE hotelId) (retryDelay (reconnectAttempts (svc w))) w)
  | None => w
  end.

Definition connect (env : environment) (w : world) : world :=
  match socket (svc w), isConnected (svc w) with
  | Some _, true => w
  | _, _ =>
      if IS_PRODUCTION env && negb (useSSE (svc w)) then switchToSSE w
      else if negb (useSSE (svc w)) then connectWebSocket env w
      else w
  end.

Definition disconnect (w : world) : world :=
  let w := clearReconnectTimer w in
  let w := clearPollingInterval w in
  let w := closeSocket w in
  let w := closeStreams w in
  let w := this (set_sseConnections ∅) w in
  let w := this (set_isConnected false) w in
  let w := this (set_useSSE false) w in
  let w := this (set_reconnectAttempts 0) w in
  this (set_eventListeners ∅) w.

(** *** The listener registry *)

(** [listeners.indexOf(callback)], [-1] when absent. *)
Fixpoint indexOf_from (listeners : list callback) (cb : callback) (i : Z) : Z :=
  match listeners with
  | [] => -1
  | c :: rest => if decide (c = cb) then i else indexOf_from rest cb (i + 1)
  end.

Definition indexOf (listeners : list callback) (cb : callback) : Z :=
  indexOf_from listeners cb 0.

(** [listeners.splice(index, 1)] for an index that is not negative. *)
Definition splice1 (index : Z) (listeners : list callback) : list callback :=
  delete (Z.to_nat index) listeners.

(** [if (!has(eventName)) set(eventName, []); get(eventName)!.push(callback)] *)
Definition addListener (eventName : string) (cb : callback) (w : world) : world :=
  let w :=
    match eventListeners (svc w) !! eventName with
    | Some _ => w
    | None =>
        this (fun s => set_eventListeners (<[eventName := []]> (eventListeners s)) s) w
    end in
  this (fun s =>
          set_eventListeners
            (alter (fun l => l ++ [cb]) eventName (eventListeners s)) s) w.

(** The body shared by [off], [offRoomUpdate] and [offActivityUpdate]. *)
Definition removeListener (eventName : string) (cb : option callback)
  (w : world) : world :=
  match cb with
  | Some cb =>
      match eventListeners (svc w) !! eventName with
      | Some listeners =>
          let index := indexOf listeners cb in
          if index >? -1 then
            this (fun s =>
                    set_eventListeners
                      (alter (splice1 index) eventName (eventListeners s)) s) w
          else w
      | None => w
      end
  | None => w
  end.

Definition onRoomUpdate (env : environment) (hotelId : string) (cb : callback)
  (w : world) : world :=
  let eventName := "roomUpdate:" +:+ hotelId in
  let w := addListener eventName cb w in
  if useSSE (svc w) then connectSSE env hotelId w
  else match socket (svc w) with
       | None => connect env w
       | Some _ => w
       end.

Definition offRoomUpdate (hotelId : string) (cb : option callback) (w : world)
  : world :=
  removeListener ("roomUpdate:" +:+ hotelId) cb w.

Definition onActivityUpdate (env : environment) (hotelId : string)
  (cb : callback) (w : world) : world :=
  let eventName := "activityUpdate:" +:+ hotelId in
  let w := addListener eventName cb w in
  if useSSE (svc w) then connectSSE env hotelId w
  else match socket (svc w) with
       | None => connect env w
       | Some _ => w
       end.

Definition offActivityUpdate (hotelId : string) (cb : option callback)
  (w : world) : world :=
  removeListener ("activityUpdate:" +:+ hotelId) cb w.

Definition on (env : environment) (event : string) (cb : callback) (w : world)
  : world :=
  let w := match socket (svc w) with
           | None => connect env w
           | Some _ => w
           end in
  addListener event cb w.

Definition off (event : string) (cb : option callback) (w : world) : world :=
  removeListener event cb w.

(** [{event, data: args.length === 1 ? args[0] : args}] *)
Definition envelope (event : string) (args : list value) : value :=
  VObj [("event", VStr event);
        ("data", match args with [a] => a | _ => VArr args end)].

Definition emit (event : string) (args : list value) (w : world)
  : world * completion :=
  match socket (svc w), isConnected (svc w) with
  | Some id, true => WebSocket_send id (JSON.stringify (envelope event args)) w
  | _, _ => (w, Normal)
  end.

Definition getSocket (w : world) : option nat := socket (svc w).

Definition isSocketConnected (w : world) : bool := isConnected (svc w).

(** ** The event loop *)

(** Everything that can happen to the service: a call of a public method by
    the application, an event dispatched by the platform on one of the
    transports, a timer that fires, or time passing. *)
Inductive event : Type :=
| Connect
| Disconnect
| OnRoomUpdate (hotelId : string) (cb : callback)
| OffRoomUpdate (hotelId : string) (cb : option callback)
| OnActivityUpdate (hotelId : string) (cb : callback)
| OffActivityUpdate (hotelId : string) (cb : option callback)
| On (eventName : string) (cb : callback)
| Off (eventName : string) (cb : option callback)
| Emit (eventName : string) (args : list value)
| SocketOpen (id : nat)
| SocketClose (id : nat) (code : Z)
| SocketError (id : nat)
| SocketMessage (id : nat) (raw : string)
| StreamOpen (id : nat)
| StreamError (id : nat) (failed : bool)
| StreamMessage (id : nat) (raw : string)
| TimerFires (id : nat)
| Elapse (dt : Z).

Definition find_timer (id : nat) (w : world) : option timer :=
  List.find (fun t => Nat.eqb (timer_id t) id) (timers w).

Definition run_task (env : environment) (t : task) (w : world) : world :=
  match t with
  | ConnectionTimeout => connectionTimeout_fired w
  | ReconnectWebSocket => connectWebSocket env w
  | RetrySSE hotelId => retrySSE_fired env hotelId w
  end.

(** One turn of the event loop.  [None] means that the platform cannot
    produce the event in this state: an open event needs a connecting
    transport, a message an open one, no event follows the close event of a
    socket or the closing of a stream, a timer fires once and not before it
    is due. *)
Definition step (env : environment) (w : world) (e : event) : option world :=
  match e with
  | Connect => Some (connect env w)
  | Disconnect => Some (disconnect w)
  | OnRoomUpdate h cb => Some (onRoomUpdate env h cb w)
  | OffRoomUpdate h cb => Some (offRoomUpdate h cb w)
  | OnActivityUpdate h cb => Some (onActivityUpdate env h cb w)
  | OffActivityUpdate h cb => Some (offActivityUpdate h cb w)
  | On n cb => Some (on env n cb w)
  | Off n cb => Some (off n cb w)
  | Emit n args => Some (fst (emit n args w))
  | SocketOpen id =>
      match sockets w !! id with
      | Some s =>
          match ws_state s with
          | WS_CONNECTING =>
              Some (socket_onopen (ws_connectionTimeout s)
                      (set_ws_state WS_OPEN false id w))
          | _ => None
          end
      | None => None
      end
  | SocketClose id code =>
      match sockets w !! id with
      | Some s =>
          if ws_close_fired s then None
          else Some (socket_onclose (ws_connectionTimeout s) code
                       (set_ws_state WS_CLOSED true id w))
      | None => None
      end
  | SocketError id =>
      match sockets w !! id with
      | Some s =>
          if ws_close_fired s then None
          else Some (socket_onerror (ws_connectionTimeout s)
                       (set_ws_state WS_CLOSED false id w))
      | None => None
      end
  | SocketMessage id raw =>
      match sockets w !! id with
      | Some s =>
          match ws_state s with
          | WS_OPEN => Some (socket_onmessage raw w)
          | _ => None
          end
      | None => None
      end
  | StreamOpen id =>
      match streams w !! id with
      | Some e =>
          match es_state e with
          | ES_CONNECTING => Some (eventSource_onopen (set_es_state ES_OPEN id w))
          | _ => None
          end
      | None => None
      end
  | StreamError id failed =>
      match streams w !! id with
      | Some e =>
          match es_state e with
          | ES_CLOSED => None
          | _ =>
              Some (eventSource_onerror id (es_hotelId e)
                      (set_es_state (if failed then ES_CLOSED else ES_CONNECTING)
                         id w))
          end
      | None => None
      end
  | StreamMessage id raw =>
      match streams w !! id with
      | Some e =>
          match es_state e with
          | ES_OPEN => Some (eventSource_onmessage raw w)
          | _ => None
          end
      | None => None
      end
  | TimerFires id =>
      match find_timer id w with
      | Some t =>
          if timer_due t <=? now w
          then Some (run_task env (timer_task t) (clearTimeout id w))
          else None
      | None => None
      end
  | Elapse dt =>
      if 0 <=? dt then Some (set_now (now w + dt) w) else None
  end.

Fixpoint run (env : environment) (w : world) (es : list event) : option world :=
  match es with
  | [] => Some w
  | e :: rest =>
      match step env w e with
      | Some w' => run env w' rest
      | None => None
      end
  end.

Definition reachable (env : environment) (w : world) : Prop :=
  exists es, run env initial es = Some w.

(** The world after a trace from the initial state (the initial state
    itself if the platform cannot produce the trace). *)
Definition after (env : environment) (es : list event) : world :=
  default initial (run env initial es).

Definition development : environment :=
  {| NODE_ENV := "development"; NEXT_PUBLIC_SOCKET_URL := "";
     WebSocket_available := true; EventSource_available := true |}.

Definition production : environment :=
  {| NODE_ENV := "production"; NEXT_PUBLIC_SOCKET_URL := "";
     WebSocket_available := true; EventSource_available := true |}.

(** * Notions used by the statements *)

(** ** Descriptions that the statements compare the code with *)

(** The listeners that a dispatch reaches: all of them up to and including
    the first one that throws. *)
Fixpoint called (listeners : list callback) : list callback :=
  match listeners with
  | [] => []
  | c :: rest =>
      c :: match cb_outcome c with
           | Throws => []
           | Returns => called rest
           end
  end.

(** The dispatch key and the argument as the prose of the interface
    describes them: the [event] field, or the [type] field when [event] is
    absent; the [data] field when present, the whole message otherwise. *)
Definition key_by_presence (fields : list (string * value)) : option value :=
  match lookup_field "event" fields with
  | Some v => Some v
  | None => lookup_field "type" fields
  end.

Definition argument_by_presence (fields : list (string * value)) : value :=
  match lookup_field "data" fields with
  | Some v => v
  | None => VObj fields
  end.

Definition absent_or_truthy (v : option value) : Prop :=
  match v with
  | Some x => truthy x = true
  | None => True
  end.

(** The list that a dispatch under [key] iterates over; a key that is not
    in the registry delivers to no listener. *)
Definition listeners_of (key : string) (w : world) : list callback :=
  default [] (eventListeners (svc w) !! key).

(** The replay of the prose: append for a subscribe, removal of the first
    match for an unsubscribe, nothing for an unsubscribe without a
    callback. *)
Inductive registry_op : Type :=
| Append (cb : callback)
| RemoveFirst (cb : option callback).

Fixpoint remove_first (cb : callback) (l : list callback) : list callback :=
  match l with
  | [] => []
  | c :: rest => if decide (c = cb) then rest else c :: remove_first cb rest
  end.

Definition replay_op (l : list callback) (op : registry_op) : list callback :=
  match op with
  | Append cb => l ++ [cb]
  | RemoveFirst (Some cb) => remove_first cb l
  | RemoveFirst None => l
  end.

Definition replay (ops : list registry_op) (l : list callback) : list callback :=
  fold_left replay_op ops l.

(** The registry operation that a call performs on [key], if any. *)
Definition registry_op_of (key : string) (e : event) : option registry_op :=
  let on_key (name : string) (op : registry_op) :=
    if String.eqb name key then Some op else None in
  match e with
  | On name cb => on_key name (Append cb)
  | Off name cb => on_key name (RemoveFirst cb)
  | OnRoomUpdate h cb => on_key ("roomUpdate:" +:+ h) (Append cb)
  | OffRoomUpdate h cb => on_key ("roomUpdate:" +:+ h) (RemoveFirst cb)
  | OnActivityUpdate h cb => on_key ("activityUpdate:" +:+ h) (Append cb)
  | OffActivityUpdate h cb => on_key ("activityUpdate:" +:+ h) (RemoveFirst cb)
  | _ => None
  end.

(** A subscription to the topic [hotelId] through one of the two topic
    methods. *)
Definition subscribes_to (hotelId : string) (e : event) : Prop :=
  exists cb, e = OnRoomUpdate hotelId cb \/ e = OnActivityUpdate hotelId cb.

(** The streams of a topic that are open. *)
Definition open_streams (hotelId : string) (w : world) : list EventSource :=
  List.filter
    (fun e => String.eqb (es_hotelId e) hotelId && (es_code (es_state e) =? 1))
    (streams w).

(** A timer of the stream retry of [eventSource.onerror]. *)
Definition is_retry (t : timer) : bool :=
  match timer_task t with
  | RetrySSE _ => true
  | _ => false
  end.

(** No WebSocket has been constructed, the handle is null and no pending
    timer would construct one. *)
Definition no_websocket (w : world) : Prop :=
  sockets w = [] /\ socket (svc w) = None /\ forallb is_retry (timers w) = true.

(** ** Scenarios *)

(** Three listeners; the third one throws. *)
Definition cbA : callback := {| cb_id := 1; cb_outcome := Returns |}.
Definition cbB : callback := {| cb_id := 2; cb_outcome := Returns |}.
Definition cbThrows : callback := {| cb_id := 3; cb_outcome := Throws |}.

(** The Number that the literal 1.5 denotes. *)
Definition one_and_a_half : number := Number.of_decimal false 15 (-1).

(** An activity message without [event] field, whose payload holds a string
    and a Number that is no integer. *)
Definition activity_a1 : list (string * value) :=
  [("type", VStr "activityUpdate:7");
   ("data", VObj [("id", VStr "a1"); ("kwh", VNum one_and_a_half)])].

Definition room42_zero : list (string * value) :=
  [("event", VStr "roomUpdate:42"); ("data", VNum 0)].

Definition room42_by_type : list (string * value) :=
  [("event", VStr ""); ("type", VStr "roomUpdate:42")].

Definition occupied : value := VObj [("status", VStr "occupied")].

Definition raw_a1 : string := JSON.stringify (VObj activity_a1).

Definition occupied_frame : string :=
  JSON.stringify (envelope "roomUpdate:42" [occupied]).

Definition room7_frame : string :=
  JSON.stringify (envelope "roomUpdate:7" [occupied]).

(** The server closes an open socket with code 1001 and the reconnect is
    made. *)
Definition one_failed_attempt : list event :=
  [Connect; SocketOpen 0; SocketClose 0 1001; Elapse 1000; TimerFires 2].

Definition two_failed_attempts : list event :=
  [Connect; SocketClose 0 1000; Elapse 1000; TimerFires 2; SocketClose 1 1000].

Definition two_sockets_closed : list event :=
  [Connect; Connect; SocketOpen 0; SocketOpen 1;
   SocketClose 0 1001; SocketClose 1 1001].

Definition two_activity_listeners : list event :=
  [Connect; OnActivityUpdate "7" cbA; OnActivityUpdate "7" cbB; StreamOpen 0].

Definition one_room_listener : list event :=
  [Connect; SocketOpen 0; OnRoomUpdate "42" cbA].



Definition room42_calls : list event :=
  [OnRoomUpdate "42" cbA; On "roomUpdate:42" cbB; OnRoomUpdate "42" cbA;
   Off "roomUpdate:42" (Some cbA); OffRoomUpdate "42" None;
   OffRoomUpdate "42" (Some cbThrows)].

Definition one_stream : list event := [Connect; OnRoomUpdate "7" cbA].

Definition stream_retried : list event :=
  [Connect; OnRoomUpdate "7" cbA; StreamOpen 0; StreamError 0 false;
   Elapse 5000; TimerFires 1; StreamOpen 1; StreamOpen 0].

Definition stream_resubscribed : list event :=
  [Connect; OnRoomUpdate "7" cbA; StreamOpen 0; StreamError 0 false;
   OnActivityUpdate "7" cbB; StreamOpen 1; StreamOpen 0].

Definition w_two_listeners : world := after production two_activity_listeners.

Definition w_a1_delivered : world :=
  after production (two_activity_listeners ++ [StreamMessage 0 raw_a1]).


(** The first socket of a development run, once open. *)
Definition open_socket_0 : WebSocket :=
  {| ws_url := "wss://hotel-backend-5kcn.onrender.com/ws";
     ws_state := WS_OPEN; ws_close_fired := false; ws_connectionTimeout := 1 |}.


Definition w_not_connected : world := after development [Connect].

Definition w_connected : world := after development [Connect; SocketOpen 0].

Definition w_one_stream : world := after production one_stream.

Definition w_stream_open : world := after production (one_stream ++ [StreamOpen 0]).

(** ** Proof automation *)

(** Evaluation of a trace whose close codes, delays and environment are
    variables constrained by hypotheses. *)
Ltac eval_trace :=
  cbn [run step];
  repeat first
    [ progress cbn
    | progress unfold connect, connectWebSocket, socket_onclose,
        socket_onopen, attemptReconnect, switchToSSE, closeSocket,
        clearReconnectTimer, find_timer, run_task, setTimeout, clearTimeout,
        reconnectInterval
    | rewrite (proj2 (Z.eqb_neq _ _)) by assumption
    | rewrite (proj2 (Z.leb_le _ _)) by lia
    | match goal with H : _ = _ |- _ => rewrite H end ].

Create HintDb handlers.

#[local] Hint Unfold switchToSSE closeSocket clearReconnectTimer
  clearPollingInterval connectWebSocket attemptReconnect socket_onopen
  socket_onclose socket_onerror connectSSE eventSource_onopen
  eventSource_onerror retrySSE_fired connectionTimeout_fired connect emit
  WebSocket_send WebSocket_close EventSource_close clearTimeout setTimeout
  set_ws_state set_es_state : handlers.

(** Unfold the handlers, split on every test they make and compare the
    fields that remain. *)
Ltac frame :=
  repeat autounfold with handlers;
  cbn;
  repeat (case_match; cbn);
  try reflexivity.

(** * Notions used by the further properties *)

(** The URL that [connectWebSocket] hands to [new WebSocket]. *)
Definition wsUrl_of (env : environment) : string :=
  replace "http://" "ws://" (replace "https://" "wss://" (SOCKET_URL env))
  +:+ "/ws".

(** The URL that [connectSSE] hands to [new EventSource] for a topic. *)
Definition sseUrl_of (env : environment) (hotelId : string) : string :=
  SOCKET_URL env +:+ "/api/events/" +:+ hotelId.

(** Whether [pat] occurs in [s]. *)
Fixpoint occurs (pat s : string) : bool :=
  match JSON.expect pat s with
  | Some _ => true
  | None =>
      match s with
      | EmptyString => false
      | String _ s' => occurs pat s'
      end
  end.

(** The calls that add a listener. *)
Definition is_subscribe (e : event) : bool :=
  match e with
  | OnRoomUpdate _ _ | OnActivityUpdate _ _ | On _ _ => true
  | _ => false
  end.

(** What a subscribe of [cb] followed by an unsubscribe of it leaves for
    [key] in [w'], when the pair started from [w]: the list of the key as
    before when [cb] was not in it, otherwise the list without the earlier
    registration and with [cb] at its end; and the key is in the registry. *)
Definition restored (cb : callback) (w : world) (key : string) (w' : world)
  : Prop :=
  listeners_of key w' =
    (if decide (cb ∈ listeners_of key w)
     then remove_first cb (listeners_of key w) ++ [cb]
     else listeners_of key w) /\
  is_Some (eventListeners (svc w') !! key).

(** ** Further proof automation *)

(** From [step env w e = Some w'], for a given event, to the handler that
    ran. *)
Ltac invert_step Hs :=
  try (injection Hs as <-);
  repeat match type of Hs with
         | match ?x with _ => _ end = Some _ =>
             destruct x eqn:?; try discriminate
         | Some _ = Some _ => injection Hs as <-
         end.

Ltac unfold_calls :=
  unfold onRoomUpdate, offRoomUpdate, onActivityUpdate, offActivityUpdate,
    on, off, addListener, removeListener, socket_onmessage,
    eventSource_onmessage, onmessage, run_task.

(** ** Further scenarios *)

Definition w_stream_7_open : world :=
  after production [Connect; OnRoomUpdate "7" cbA; StreamOpen 0].

Definition w_stream_7_retry : world :=
  after production
    [Connect; OnRoomUpdate "7" cbA; StreamOpen 0; StreamError 0 false].

Definition stream_7_open : EventSource :=
  {| es_url := "https://hotel-backend-5kcn.onrender.com/api/events/7";
     es_hotelId := "7"; es_state := ES_OPEN |}.

Definition retry_timer_7 : timer :=
  {| timer_id := 1; timer_due := 5000; timer_task := RetrySSE "7" |}.

Definition w_stream_7_due : world :=
  after production
    [Connect; OnRoomUpdate "7" cbA; StreamOpen 0; StreamError 0 false;
     Elapse 5000].

Definition w_stream_7_reopened : world :=
  after production
    [Connect; OnRoomUpdate "7" cbA; StreamOpen 0; StreamError 0 false;
     Elapse 5000; TimerFires 1].

Definition connecting_socket_0 : WebSocket :=
  {| ws_url := "wss://hotel-backend-5kcn.onrender.com/ws";
     ws_state := WS_CONNECTING; ws_close_fired := false;
     ws_connectionTimeout := 1 |}.

Definition w_connecting : world := after development [Connect].

Definition w_socket_error : world := after development [Connect; SocketError 0].



(** A frame that reaches no listener: it is not JSON, or it decodes to
    something that is not an object, or the object yields no string as its
    event name, or no listener is registered under that name. *)
Definition undeliverable (w : world) (raw : string) : Prop :=
  JSON.parse raw = None \/
  (exists d, JSON.parse raw = Some d /\ forall fields, d <> VObj fields) \/
  (exists fields,
     JSON.parse raw = Some (VObj fields) /\
     forall k, eventName_of (VObj fields) <> Some (VStr k)) \/
  (exists fields k,
     JSON.parse raw = Some (VObj fields) /\
     eventName_of (VObj fields) = Some (VStr k) /\
     listeners_of k w = []).

Definition w_room_listener : world := after development one_room_listener.

Definition room99_frame : string :=
  JSON.stringify (envelope "roomUpdate:99" [occupied]).

(** A stream after [close()]. *)
Definition closed_stream (e : EventSource) : EventSource :=
  {| es_url := es_url e; es_hotelId := es_hotelId e; es_state := ES_CLOSED |}.

(** The stream [id] is the entry of some topic in the map. *)
Definition registered (m : gmap string nat) (id : nat) : Prop :=
  map_Exists (fun _ v => v = id) m.

(** Two calls of [connect] leave the first socket without a handle; it
    opens, and a listener subscribes. *)
Definition orphan_socket_open : list event :=
  [Connect; Connect; SocketOpen 0; OnRoomUpdate "42" cbA].

(** Every entry of [sseConnections] names a stream that was opened for the
    topic of the entry, with the URL of that topic, and that is not closed. *)
Definition sse_entries_live (env : environment) (w : world) : Prop :=
  forall h id, sseConnections (svc w) !! h = Some id ->
    exists e, streams w !! id = Some e /\ es_hotelId e = h /\
              es_url e = sseUrl_of env h /\ es_state e <> ES_CLOSED.

(** [w'] has the streams and the entries of [w]. *)
Definition same_streams (w w' : world) : Prop :=
  streams w' = streams w /\ sseConnections (svc w') = sseConnections (svc w).

(** A connection attempt whose timeout is due, and the state after the
    timeout fired. *)
Definition connection_timer_1 : timer :=
  {| timer_id := 1; timer_due := 3000; timer_task := ConnectionTimeout |}.

Definition w_timeout_due : world := after development [Connect; Elapse 3000].

Definition w_timed_out : world :=
  after development [Connect; Elapse 3000; TimerFires 1].

(** Two calls of [connect]: the handle is the second socket, the first is
    still connecting; then the first one opens. *)
Definition w_two_sockets : world := after development [Connect; Connect].

Definition w_orphan_opened : world :=
  after development [Connect; Connect; SocketOpen 0].

(** ** The caller in [useHotelData] *)

(** The effect of [useHotelData] that sets up the real-time updates, with
    the two handlers it creates passed in, and the cleanup it returns.  The
    effect returns no cleanup when [hotelId] is falsy. *)
Definition useHotelData_effect (env : environment) (hotelId : string)
  (handleRoomUpdate handleActivityUpdate : callback) (w : world) : world :=
  if String.eqb hotelId "" then w
  else
    let w := connect env w in
    let w := onRoomUpdate env hotelId handleRoomUpdate w in
    onActivityUpdate env hotelId handleActivityUpdate w.

Definition useHotelData_cleanup (hotelId : string)
  (handleRoomUpdate handleActivityUpdate : callback) (w : world) : world :=
  if String.eqb hotelId "" then w
  else
    let w := offRoomUpdate hotelId (Some handleRoomUpdate) w in
    offActivityUpdate hotelId (Some handleActivityUpdate) w.

(** The hook has run its effect for hotel 7; the stream has opened and has
    then raised an error that did not close it. *)
Definition w_mounted_stream_error : world :=
  after production
    [Connect; OnRoomUpdate "7" cbA; OnActivityUpdate "7" cbB;
     StreamOpen 0; StreamError 0 false].

(** The only stream has opened and then failed for good. *)
Definition w_stream_7_failed : world :=
  after production
    [Connect; OnRoomUpdate "7" cbA; StreamOpen 0; StreamError 0 true].

(** ** Automation for the facts about the JSON codec *)

(** Applies [lem] in every hypothesis it applies in. *)
Ltac use_in_all lem :=
  repeat match goal with
         | H : _ |- _ => apply lem in H
         end.

(** Splits on the terms that the matches in [H] inspect, outermost first. *)
Ltac split_matches H :=
  repeat match type of H with
         | match ?x with _ => _ end = Some _ =>
             destruct x eqn:?; try discriminate H
         | (let '(_, _) := ?x in _) = Some _ =>
             destruct x eqn:?
         end.

(** * Properties *)

(** ** The JSON codec *)

Module JSONFacts.
Import JSON.

Lemma skip_ws_length (s : string) :
  (String.length (skip_ws s) <= String.length s)%nat.
Proof.
  induction s as [|c s IH]; cbn; [lia|].
  destruct (is_ws c); cbn; lia.
Qed.

Lemma expect_length (lit s r : string) :
  expect lit s = Some r -> (String.length r <= String.length s)%nat.
Proof.
  revert s. induction lit as [|a lit IH]; intros s; cbn.
  - intros [= ->]. lia.
  - destruct s as [|b s]; [discriminate|].
    destruct (Ascii.eqb a b); [|discriminate].
    intros H. apply IH in H. cbn. lia.
Qed.

Lemma parse_string_body_length (s acc : string) (p : option N)
  (str r : string) :
  parse_string_body s acc p = Some (str, r) ->
  (String.length r < String.length s)%nat.
Proof.
  assert (H : forall n s, (String.length s <= n)%nat ->
              forall acc p, parse_string_body s acc p = Some (str, r) ->
              (String.length r < String.length s)%nat);
    [|exact (H (String.length s) s (le_n _) acc p)].
  clear. induction n as [|n IH]; intros s Hn acc p H.
  { destruct s; [discriminate|cbn in Hn; lia]. }
  destruct s as [|c rest]; [discriminate|]. cbn in Hn.
  cbn [parse_string_body] in H. cbv zeta in H.
  destruct (N_of_ascii c =? 34)%N.
  { injection H as _ <-. cbn. lia. }
  destruct (N_of_ascii c <? 32)%N; [discriminate|].
  destruct (N_of_ascii c =? 92)%N.
  - destruct rest as [|e rest']; [discriminate|]. cbn in Hn.
    destruct (N_of_ascii e =? 117)%N.
    + destruct rest' as [|a [|b [|c' [|d rest'']]]]; try discriminate.
      destruct (parse_hex4 _) as [[u ?]|]; [|discriminate].
      destruct (UTF16.push acc p u) as [acc' p'].
      apply IH in H; cbn in *; lia.
    + repeat match type of H with
             | (if ?b then _ else _) = _ => destruct b
             end; try discriminate; apply IH in H; cbn in *; lia.
  - apply IH in H; cbn in *; lia.
Qed.

Lemma parse_digits_length (s : string) (acc : N) (count : Z) :
  (String.length (snd (parse_digits s acc count)) <= String.length s)%nat.
Proof.
  revert acc count. induction s as [|c s IH]; intros acc count; cbn; [lia|].
  destruct (is_digit c); cbn; [|lia].
  specialize (IH (acc * 10 + (N_of_ascii c - 48))%N (count + 1)). lia.
Qed.

Lemma parse_fraction_length (m : N) (s r : string) (m' : N) (places : Z) :
  parse_fraction m s = Some (m', places, r) ->
  (String.length r <= String.length s)%nat.
Proof.
  unfold parse_fraction. destruct s as [|c rest]; [intros [= _ _ <-]; lia|].
  destruct (N_of_ascii c =? 46)%N.
  - destruct (starts_with_digit rest); [|discriminate].
    intros [= H]. pose proof (parse_digits_length rest m 0) as Hl.
    rewrite H in Hl. cbn in *. lia.
  - intros [= _ _ <-]. lia.
Qed.

Lemma parse_exponent_length (s r : string) (e : Z) :
  parse_exponent s = Some (e, r) -> (String.length r <= String.length s)%nat.
Proof.
  unfold parse_exponent. destruct s as [|c rest]; [intros [= _ <-]; lia|].
  destruct ((N_of_ascii c =? 101) || (N_of_ascii c =? 69))%N.
  - set (sg := match rest with
               | String sg r0 =>
                   if (N_of_ascii sg =? 45)%N then (true, r0)
                   else if (N_of_ascii sg =? 43)%N then (false, r0)
                   else (false, rest)
               | EmptyString => (false, rest)
               end).
    assert (Hsg : (String.length (snd sg) <= String.length rest)%nat).
    { unfold sg. destruct rest as [|x r0]; cbn; [lia|].
      destruct (N_of_ascii x =? 45)%N; cbn; [lia|].
      destruct (N_of_ascii x =? 43)%N; cbn; lia. }
    destruct sg as [neg rest']. cbn in Hsg.
    destruct (starts_with_digit rest'); [|discriminate].
    pose proof (parse_digits_length rest' 0 0) as Hl.
    destruct (parse_digits rest' 0 0) as [[e0 c0] s']. cbn in Hl.
    intros [= _ <-]. cbn. lia.
  - intros [= _ <-]. lia.
Qed.

Lemma parse_number_length (s r : string) (x : number) :
  parse_number s = Some (x, r) -> (String.length r < String.length s)%nat.
Proof.
  unfold parse_number.
  set (ns := match s with
             | String c rest =>
                 if (N_of_ascii c =? 45)%N then (true, rest) else (false, s)
             | EmptyString => (false, s)
             end).
  assert (Hns : (String.length (snd ns) <= String.length s)%nat).
  { unfold ns. destruct s as [|c rest]; cbn; [lia|].
    destruct (N_of_ascii c =? 45)%N; cbn; lia. }
  destruct ns as [neg s1]. cbn in Hns.
  destruct s1 as [|c rest]; [discriminate|]. cbn in Hns.
  destruct (is_digit c) eqn:Hd; [|discriminate].
  set (ds := if (N_of_ascii c =? 48)%N then (0%N, 0, rest)
             else parse_digits (String c rest) 0 0).
  assert (Hds : (String.length (snd ds) <= String.length rest)%nat).
  { unfold ds. destruct (N_of_ascii c =? 48)%N; cbn [snd]; [lia|].
    cbn [parse_digits]. rewrite Hd. apply parse_digits_length. }
  destruct ds as [[m c0] s2]. cbn in Hds.
  destruct (parse_fraction m s2) as [[[m' places] s3]|] eqn:Hf; [|discriminate].
  apply parse_fraction_length in Hf. cbn.
  destruct (parse_exponent s3) as [[e s4]|] eqn:He; [|discriminate].
  apply parse_exponent_length in He. cbn.
  intros [= _ <-]. lia.
Qed.

Lemma skip_ws_eq_length (s t : string) :
  skip_ws s = t -> (String.length t <= String.length s)%nat.
Proof. intros <-. apply skip_ws_length. Qed.

Lemma parse_lengths (f : nat) :
  (forall s v r, parse_value f s = Some (v, r) ->
                 (String.length r < String.length s)%nat) /\
  (forall s vs r, parse_items f s = Some (vs, r) ->
                  (String.length r < String.length s)%nat) /\
  (forall s kvs r, parse_members f s = Some (kvs, r) ->
                   (String.length r < String.length s)%nat).
Proof.
  induction f as [|f (IHv & IHi & IHm)];
    [repeat split; intros; discriminate|].
  repeat split; intros s v r H; cbn [parse_value parse_items parse_members] in H;
    cbv zeta in H; unfold mbind, option_bind in H; split_matches H;
    injection H as <- <-;
    use_in_all skip_ws_eq_length; use_in_all expect_length;
    use_in_all parse_string_body_length; use_in_all parse_number_length;
    use_in_all IHv; use_in_all IHi; use_in_all IHm;
    cbn [String.length] in *; lia.
Qed.

(** From the fuel that [parse] supplies on, more fuel changes nothing. *)
Lemma parse_fuel (f : nat) :
  (forall s g, (2 * String.length s + 1 <= f)%nat -> (f <= g)%nat ->
               parse_value g s = parse_value f s) /\
  (forall s g, (2 * String.length s + 2 <= f)%nat -> (f <= g)%nat ->
               parse_items g s = parse_items f s) /\
  (forall s g, (2 * String.length s + 2 <= f)%nat -> (f <= g)%nat ->
               parse_members g s = parse_members f s).
Proof.
  induction f as [|f (IHv & IHi & IHm)]; [repeat split; intros; lia|].
  repeat split; intros s g Hf Hg; (destruct g as [|g]; [lia|]);
    cbn [parse_value parse_items parse_members]; cbv zeta;
    unfold mbind, option_bind;
    repeat match goal with
           | |- context [parse_value g ?x] => rewrite (IHv x g)
           | |- context [parse_items g ?x] => rewrite (IHi x g)
           | |- context [parse_members g ?x] => rewrite (IHm x g)
           | |- context [match ?x with _ => _ end] => destruct x eqn:?
           end;
    try reflexivity;
    use_in_all skip_ws_eq_length; use_in_all expect_length;
    use_in_all parse_string_body_length; use_in_all parse_number_length;
    use_in_all (proj1 (parse_lengths f));
    use_in_all (proj1 (proj2 (parse_lengths f)));
    use_in_all (proj2 (proj2 (parse_lengths f)));
    cbn [String.length] in *; lia.
Qed.

Lemma parse_fuel_sufficient (text : string) (g : nat) :
  (S (2 * String.length text) <= g)%nat ->
  match parse_value g text with
  | Some (v, rest) =>
      match skip_ws rest with
      | EmptyString => Some v
      | String _ _ => None
      end
  | None => None
  end = parse text.
Proof.
  intros Hg. unfold parse.
  rewrite (proj1 (parse_fuel (S (2 * String.length text))) text g) by lia.
  reflexivity.
Qed.


(** Values that the platform gives: an integer beyond 2^53 is rounded to
    the nearest Number; a fraction is read and written back; a Number of
    10^21 or more is written with an exponent; a key that is repeated keeps
    its place and takes the last value; keys that are array indices come
    first; a surrogate pair written as two escapes is the character
    itself; [-0] is a zero of its own. *)
Lemma parse_examples :
  parse "9007199254740993" = Some (VNum 9007199254740992) /\
  parse "0.1e1" = Some (VNum 1) /\
  parse "1.5" = Some (VNum one_and_a_half) /\
  stringify (VNum one_and_a_half) = "1.5" /\
  stringify (VNum 1000000000000000000000) = "1e+21" /\
  stringify (VNum 100000000000000000000) = "100000000000000000000" /\
  parse ("{" +:+ quote "a" +:+ ":1," +:+ quote "b" +:+ ":2," +:+ quote "a" +:+ ":3}")
  = Some (VObj [("a", VNum 3); ("b", VNum 2)]) /\
  parse ("{" +:+ quote "b" +:+ ":1," +:+ quote "2" +:+ ":2," +:+ quote "1" +:+ ":3}")
  = Some (VObj [("1", VNum 3); ("2", VNum 2); ("b", VNum 1)]) /\
  parse (String dquote ("\ud83d\ude00" +:+ String dquote ""))
  = Some (VStr (UTF16.utf8 128512)) /\
  parse "-0" = Some (VNum (SpecFloat.S754_zero true)) /\
  parse "1e-400" = Some (VNum 0) /\
  parse "1e400" = Some (VNum (SpecFloat.S754_infinity false)) /\
  parse "01" = None /\ parse "1." = None /\ parse ".5" = None.
Proof. vm_compute. repeat split. Qed.

End JSONFacts.

(** ** Fallback on close code 1006 *)

Lemma switchToSSE_svc (w : world) :
  svc (switchToSSE w) =
  {| socket := None; isConnected := false;
     eventListeners := eventListeners (svc w);
     reconnectAttempts := 0%nat; reconnectTimer := None;
     pollingInterval := pollingInterval (svc w);
     sseConnections := sseConnections (svc w); useSSE := true |}.
Proof.
  unfold switchToSSE, closeSocket, clearReconnectTimer.
  destruct w as [[so ic el ra rt pi sc us] ws es ts nt n cs wi].
  destruct so, rt; reflexivity.
Qed.

(** C1 (as amended): when a WebSocket reports a close event with code 1006
    the handler leaves the service in fallback mode before it returns, with
    no socket, no pending reconnect handle, and with the reconnect counter
    set to zero, whatever its value was; the counter is never incremented on
    this path. *)
Theorem close_1006_enters_fallback (env : environment) (w w' : world) (id : nat) :
  step env w (SocketClose id 1006) = Some w' ->
  useSSE (svc w') = true /\
  isConnected (svc w') = false /\
  socket (svc w') = None /\
  reconnectTimer (svc w') = None /\
  reconnectAttempts (svc w') = 0%nat.
Proof.
  unfold step. destruct (sockets w !! id) as [s|]; [|discriminate].
  destruct (ws_close_fired s); [discriminate|].
  intros [= <-]. unfold socket_onclose. change (1006 =? 1006) with true.
  cbv iota. rewrite switchToSSE_svc. cbn. repeat split.
Qed.

Lemma close_1006_enters_fallback_witness :
  let w := after development one_failed_attempt in
  let w' := after development (one_failed_attempt ++ [SocketClose 1 1006]) in
  step development w (SocketClose 1 1006) = Some w' /\
  useSSE (svc w') = true /\
  isConnected (svc w') = false /\
  socket (svc w') = None /\
  reconnectTimer (svc w') = None /\
  reconnectAttempts (svc w') = 0%nat.
Proof.
  intros w w'.
  assert (H : step development w (SocketClose 1 1006) = Some w')
    by (vm_compute; reflexivity).
  split; [exact H|].
  exact (close_1006_enters_fallback development w w' 1 H).
Defined.

(** C1 (as stated) fails: after one counted retry (the server has closed
    the open socket with code 1001 and the reconnect has been made) the
    counter is 1 and the service is not in fallback mode; a close with code
    1006 on the second socket changes the counter to 0. *)
Lemma close_1006_changes_counter :
  let w := after development one_failed_attempt in
  let w' := after development (one_failed_attempt ++ [SocketClose 1 1006]) in
  run development initial one_failed_attempt = Some w /\
  useSSE (svc w) = false /\
  reconnectAttempts (svc w) = 1%nat /\
  step development w (SocketClose 1 1006) = Some w' /\
  useSSE (svc w') = true /\
  reconnectAttempts (svc w') <> reconnectAttempts (svc w).
Proof.
  vm_compute. repeat split; discriminate.
Qed.

(** ** Counted reconnects *)

(** C2 (as amended): from the initial state, outside production, let the
    first attempt and each reconnect end in a close whose code is not 1006.
    After two such closes the service is not in fallback mode: the counter
    equals the ceiling 2 and a reconnect is pending.  The third attempt is
    made, and its close is the transition to fallback: the counter equals
    the ceiling when that close arrives and is 0 when the handler
    returns. *)
Theorem third_close_enters_fallback (env : environment)
  (c1 c2 c3 a1 b1 a2 b2 a3 : Z) :
  IS_PRODUCTION env = false -> WebSocket_available env = true ->
  c1 <> 1006 -> c2 <> 1006 -> c3 <> 1006 ->
  0 <= a1 -> reconnectInterval <= b1 ->
  0 <= a2 -> reconnectInterval <= b2 -> 0 <= a3 ->
  exists w2 w3 w4,
    run env initial
      [Connect; Elapse a1; SocketClose 0 c1; Elapse b1; TimerFires 2;
       Elapse a2; SocketClose 1 c2] = Some w2 /\
    useSSE (svc w2) = false /\
    reconnectAttempts (svc w2) = maxReconnectAttempts /\
    reconnectTimer (svc w2) = Some 4%nat /\
    run env w2 [Elapse b2; TimerFires 4; Elapse a3] = Some w3 /\
    useSSE (svc w3) = false /\
    socket (svc w3) = Some 2%nat /\
    reconnectAttempts (svc w3) = maxReconnectAttempts /\
    step env w3 (SocketClose 2 c3) = Some w4 /\
    useSSE (svc w4) = true /\
    socket (svc w4) = None /\
    reconnectAttempts (svc w4) = 0%nat.
Proof.
  unfold reconnectInterval.
  intros Hp Hw H1 H2 H3 Ha1 Hb1 Ha2 Hb2 Ha3.
  eexists. eexists. eexists.
  split; [eval_trace; reflexivity|].
  do 3 (split; [reflexivity|]).
  split; [eval_trace; reflexivity|].
  do 3 (split; [reflexivity|]).
  split; [eval_trace; reflexivity|].
  repeat split.
Qed.

Lemma third_close_enters_fallback_witness :
  exists w2 w3 w4,
    run development initial
      [Connect; Elapse 40; SocketClose 0 1000; Elapse 1000; TimerFires 2;
       Elapse 40; SocketClose 1 1001] = Some w2 /\
    useSSE (svc w2) = false /\
    reconnectAttempts (svc w2) = maxReconnectAttempts /\
    reconnectTimer (svc w2) = Some 4%nat /\
    run development w2 [Elapse 1000; TimerFires 4; Elapse 40] = Some w3 /\
    useSSE (svc w3) = false /\
    socket (svc w3) = Some 2%nat /\
    reconnectAttempts (svc w3) = maxReconnectAttempts /\
    step development w3 (SocketClose 2 1011) = Some w4 /\
    useSSE (svc w4) = true /\
    socket (svc w4) = None /\
    reconnectAttempts (svc w4) = 0%nat.
Proof.
  apply (third_close_enters_fallback development 1000 1001 1011 40 1000 40 1000 40);
    first [reflexivity | discriminate | (unfold reconnectInterval; lia)].
Defined.

(** C2 (as stated) fails: after exactly two failed attempts, each ended by
    a close with code 1000, the service is not in fallback mode; it has
    scheduled a third attempt, and if that attempt opens the service is
    connected over the WebSocket and has never been in fallback mode. *)
Lemma two_closes_do_not_enter_fallback :
  let w := after development two_failed_attempts in
  let w' := after development
              (two_failed_attempts ++ [Elapse 1000; TimerFires 4; SocketOpen 2]) in
  run development initial two_failed_attempts = Some w /\
  useSSE (svc w) = false /\
  reconnectAttempts (svc w) = maxReconnectAttempts /\
  timers w =
    [{| timer_id := 4; timer_due := 2000; timer_task := ReconnectWebSocket |}] /\
  run development w [Elapse 1000; TimerFires 4; SocketOpen 2] = Some w' /\
  useSSE (svc w') = false /\
  isConnected (svc w') = true /\
  socket (svc w') = Some 2%nat.
Proof.
  vm_compute. repeat split.
Qed.

(** ** Timers after [disconnect] *)

Lemma closeStreams_svc (w : world) : svc (closeStreams w) = svc w.
Proof.
  unfold closeStreams.
  apply (map_fold_weak_ind (fun r _ => svc r = svc w)); [reflexivity|].
  intros h id m' r _ IH. exact IH.
Qed.

Lemma closeStreams_fields (w : world) :
  sockets (closeStreams w) = sockets w /\
  timers (closeStreams w) = timers w /\
  next_timer (closeStreams w) = next_timer w /\
  now (closeStreams w) = now w /\
  calls (closeStreams w) = calls w /\
  wire (closeStreams w) = wire w.
Proof.
  unfold closeStreams.
  apply (map_fold_weak_ind
           (fun r _ => sockets r = sockets w /\ timers r = timers w /\
                       next_timer r = next_timer w /\ now r = now w /\
                       calls r = calls w /\ wire r = wire w)).
  - repeat split.
  - intros h id m' r _ IH. exact IH.
Qed.

(** [disconnect] leaves the fields of the service as a new instance has
    them. *)
Lemma disconnect_svc (w : world) : svc (disconnect w) = new_SocketService.
Proof.
  unfold disconnect. cbn. rewrite closeStreams_svc.
  unfold closeSocket, clearPollingInterval, clearReconnectTimer.
  destruct w as [[so ic el ra rt pi sc us] ws es ts nt n cs wi]. cbn.
  destruct rt, pi, so; reflexivity.
Qed.

Lemma disconnect_timers (w : world) :
  timers (disconnect w) = timers (clearPollingInterval (clearReconnectTimer w)).
Proof.
  unfold disconnect. cbn.
  destruct (closeStreams_fields
              (closeSocket (clearPollingInterval (clearReconnectTimer w))))
    as (_ & -> & _).
  unfold closeSocket.
  destruct (socket (svc (clearPollingInterval (clearReconnectTimer w))));
    reflexivity.
Qed.

Lemma find_timer_clearTimeout (id id' : nat) (w : world) :
  find_timer id (clearTimeout id' w) =
  if Nat.eqb id id' then None else find_timer id w.
Proof.
  unfold find_timer, clearTimeout. cbn.
  induction (timers w) as [|t ts IH]; cbn.
  - destruct (Nat.eqb id id'); reflexivity.
  - destruct (Nat.eqb (timer_id t) id') eqn:E1; cbn.
    + rewrite IH. destruct (Nat.eqb id id') eqn:E2; [reflexivity|].
      destruct (Nat.eqb (timer_id t) id) eqn:E3; [|reflexivity].
      apply Nat.eqb_eq in E1, E3. apply Nat.eqb_neq in E2. congruence.
    + destruct (Nat.eqb (timer_id t) id) eqn:E3.
      * apply Nat.eqb_eq in E3. subst id. rewrite E1. reflexivity.
      * exact IH.
Qed.

(** The handle stored in [reconnectTimer] is cancelled by [disconnect]. *)
Lemma disconnect_cancels_stored_timer (w : world) (t : nat) :
  reconnectTimer (svc w) = Some t ->
  find_timer t (disconnect w) = None.
Proof.
  intros H. unfold find_timer. rewrite disconnect_timers.
  change (find_timer t (clearPollingInterval (clearReconnectTimer w)) = None).
  unfold clearReconnectTimer. rewrite H.
  unfold clearPollingInterval.
  destruct (pollingInterval _) as [p|].
  - change (find_timer t
              (clearTimeout p (this (set_reconnectTimer None) (clearTimeout t w)))
            = None).
    rewrite find_timer_clearTimeout. destruct (Nat.eqb t p); [reflexivity|].
    change (find_timer t (clearTimeout t w) = None).
    rewrite find_timer_clearTimeout, Nat.eqb_refl. reflexivity.
  - change (find_timer t (clearTimeout t w) = None).
    rewrite find_timer_clearTimeout, Nat.eqb_refl. reflexivity.
Qed.

(** A connection timeout or a stream retry that is still pending after
    [disconnect] finds the guard of its closure false: firing it removes it
    from the queue and changes nothing else. *)
Lemma guarded_timer_after_disconnect (env : environment) (w w' : world)
  (id : nat) (t : timer) :
  find_timer id (disconnect w) = Some t ->
  timer_task t <> ReconnectWebSocket ->
  step env (disconnect w) (TimerFires id) = Some w' ->
  w' = clearTimeout id (disconnect w).
Proof.
  intros Hf Ht. unfold step. rewrite Hf.
  destruct (timer_due t <=? now (disconnect w)); [|discriminate].
  intros [= <-].
  destruct (timer_task t) as [| |h]; [|congruence|]; cbn [run_task].
  - unfold connectionTimeout_fired.
    change (svc (clearTimeout id (disconnect w))) with (svc (disconnect w)).
    rewrite disconnect_svc. reflexivity.
  - unfold retrySSE_fired.
    change (svc (clearTimeout id (disconnect w))) with (svc (disconnect w)).
    rewrite disconnect_svc. reflexivity.
Qed.

(** C3: a reconnect timer whose handle was overwritten survives
    [disconnect].  Two calls of [connect] before the first socket opens
    create two sockets; when both are closed by the server, each close
    schedules a reconnect and the second handle replaces the first in
    [reconnectTimer].  [disconnect] cancels the stored handle only; the
    other timer, scheduled before the call, fires afterwards and opens a new
    WebSocket on the torn-down service. *)
Theorem overwritten_reconnect_timer_outlives_disconnect :
  let w0 := after development two_sockets_closed in
  let w1 := disconnect w0 in
  let w2 := after development
              (two_sockets_closed ++ [Disconnect; Elapse 1000; TimerFires 3]) in
  run development initial two_sockets_closed = Some w0 /\
  timers w0 =
    [{| timer_id := 3; timer_due := 1000; timer_task := ReconnectWebSocket |};
     {| timer_id := 4; timer_due := 1000; timer_task := ReconnectWebSocket |}] /\
  reconnectTimer (svc w0) = Some 4%nat /\
  svc w1 = new_SocketService /\
  timers w1 =
    [{| timer_id := 3; timer_due := 1000; timer_task := ReconnectWebSocket |}] /\
  run development w1 [Elapse 1000; TimerFires 3] = Some w2 /\
  socket (svc w2) = Some 2%nat /\
  svc w2 <> svc w1 /\
  (ws_state <$> sockets w2 !! 2%nat) = Some WS_CONNECTING.
Proof.
  vm_compute. repeat split. discriminate.
Qed.

(** ** Delivery of inbound messages *)

Lemma forEach_calls (listeners : list callback) (arg : value)
  (log : list (callback * value)) :
  fst (forEach listeners arg log) =
  log ++ map (fun c => (c, arg)) (called listeners).
Proof.
  revert log. induction listeners as [|c rest IH]; intros log; cbn.
  - rewrite app_nil_r. reflexivity.
  - destruct (cb_outcome c); cbn.
    + rewrite IH, <- app_assoc. reflexivity.
    + reflexivity.
Qed.


(** What [onmessage] does with a decoded message, case by case. *)
Lemma onmessage_calls (raw : string) (data : value) (w : world) :
  JSON.parse raw = Some data ->
  svc (onmessage raw w) = svc w /\
  sockets (onmessage raw w) = sockets w /\
  streams (onmessage raw w) = streams w /\
  timers (onmessage raw w) = timers w /\
  wire (onmessage raw w) = wire w /\
  calls (onmessage raw w) =
    calls w ++
    match data with
    | VObj _ =>
        match eventName_of data with
        | Some (VStr k) =>
            map (fun c => (c, argument_of data))
              (called (default [] (eventListeners (svc w) !! k)))
        | _ => []
        end
    | _ => []
    end.
Proof.
  intros Hp. unfold onmessage. rewrite Hp.
  destruct data as [|b|n|s|items|fields];
    try (cbn; rewrite app_nil_r; repeat split; reflexivity).
  destruct (eventName_of (VObj fields)) as [[|b|n|k|items|fs]|];
    try (cbn; rewrite app_nil_r; repeat split; reflexivity).
  destruct (eventListeners (svc w) !! k) as [l|]; cbn.
  - rewrite forEach_calls. repeat split; reflexivity.
  - rewrite app_nil_r. repeat split; reflexivity.
Qed.

(** C8 (as amended): for a message that decodes to an object, on either
    transport, the dispatch key is the [event] field when that field is
    truthy and the [type] field otherwise; the listeners registered under
    the key are called in order, up to the first one that throws, each with
    the [data] field when that field is truthy and with the whole decoded
    message otherwise.  Where [event] and [data] are absent or truthy this
    is the key and the argument chosen by presence.  The service itself is
    left unchanged.  The listeners are those of the model: an invocation
    returns or throws, and neither calls back into the service nor changes
    the message it is given. *)
Theorem message_dispatch (env : environment) (w w' : world) (id : nat)
  (raw : string) (fields : list (string * value)) (e : event) :
  e = SocketMessage id raw \/ e = StreamMessage id raw ->
  step env w e = Some w' ->
  JSON.parse raw = Some (VObj fields) ->
  let key :=
    match lookup_field "event" fields with
    | Some v => if truthy v then Some v else lookup_field "type" fields
    | None => lookup_field "type" fields
    end in
  let arg :=
    match lookup_field "data" fields with
    | Some v => if truthy v then v else VObj fields
    | None => VObj fields
    end in
  svc w' = svc w /\
  calls w' =
    calls w ++
    match key with
    | Some (VStr k) =>
        map (fun c => (c, arg)) (called (default [] (eventListeners (svc w) !! k)))
    | _ => []
    end /\
  (absent_or_truthy (lookup_field "event" fields) -> key = key_by_presence fields) /\
  (absent_or_truthy (lookup_field "data" fields) -> arg = argument_by_presence fields).
Proof.
  intros He Hs Hp key arg.
  assert (Hw : w' = onmessage raw w).
  { destruct He; subst e; cbn in Hs.
    - destruct (sockets w !! id) as [s|]; [|discriminate].
      destruct (ws_state s); try discriminate.
      injection Hs as <-. reflexivity.
    - destruct (streams w !! id) as [s|]; [|discriminate].
      destruct (es_state s); try discriminate.
      injection Hs as <-. reflexivity. }
  subst w'.
  destruct (onmessage_calls raw _ w Hp) as (Hsvc & _ & _ & _ & _ & Hcalls).
  split; [exact Hsvc|]. split.
  - rewrite Hcalls. f_equal.
    assert (Hk : eventName_of (VObj fields) = key).
    { unfold eventName_of, js_or, key. cbn.
      destruct (lookup_field "event" fields); reflexivity. }
    assert (Ha : argument_of (VObj fields) = arg).
    { unfold argument_of, js_or, arg. cbn.
      destruct (lookup_field "data" fields) as [v|]; [|reflexivity].
      destruct (truthy v); reflexivity. }
    rewrite Hk, Ha. reflexivity.
  - unfold key, arg, key_by_presence, argument_by_presence, absent_or_truthy.
    split.
    + destruct (lookup_field "event" fields); [intros ->|]; reflexivity.
    + destruct (lookup_field "data" fields); [intros ->|]; reflexivity.
Qed.

Lemma message_dispatch_witness :
  step production w_two_listeners (StreamMessage 0 raw_a1) = Some w_a1_delivered /\
  JSON.parse raw_a1 = Some (VObj activity_a1) /\
  svc w_a1_delivered = svc w_two_listeners /\
  calls w_a1_delivered =
    [(cbA, VObj [("id", VStr "a1"); ("kwh", VNum one_and_a_half)]);
     (cbB, VObj [("id", VStr "a1"); ("kwh", VNum one_and_a_half)])].
Proof.
  assert (Hs : step production w_two_listeners (StreamMessage 0 raw_a1)
               = Some w_a1_delivered) by (vm_compute; reflexivity).
  assert (Hp : JSON.parse raw_a1 = Some (VObj activity_a1))
    by (vm_compute; reflexivity).
  pose proof (message_dispatch production _ _ 0 _ activity_a1
                (StreamMessage 0 raw_a1) (or_intror eq_refl) Hs Hp) as H.
  cbv zeta in H. destruct H as (Hsvc & Hcalls & _).
  split; [exact Hs|]. split; [exact Hp|]. split; [exact Hsvc|].
  rewrite Hcalls. vm_compute. reflexivity.
Defined.

(** C8 (as stated) fails on a payload that is present and falsy: for the
    message with [data] equal to 0 the listener receives the whole message,
    not the [data] field.  Likewise an [event] field that is present and
    empty is passed over in favour of [type]. *)
Lemma falsy_payload_passes_whole_message :
  let raw := JSON.stringify (VObj room42_zero) in
  let w := after development one_room_listener in
  let w' := after development (one_room_listener ++ [SocketMessage 0 raw]) in
  let raw2 := JSON.stringify (VObj room42_by_type) in
  let w2 := after development (one_room_listener ++ [SocketMessage 0 raw2]) in
  JSON.parse raw = Some (VObj room42_zero) /\
  lookup_field "data" room42_zero = Some (VNum 0) /\
  step development w (SocketMessage 0 raw) = Some w' /\
  calls w' = [(cbA, VObj room42_zero)] /\
  calls w' <> [(cbA, argument_by_presence room42_zero)] /\
  JSON.parse raw2 = Some (VObj room42_by_type) /\
  key_by_presence room42_by_type = Some (VStr "") /\
  step development w (SocketMessage 0 raw2) = Some w2 /\
  calls w2 = [(cbA, VObj room42_by_type)].
Proof.
  vm_compute. repeat split. discriminate.
Qed.

(** ** Round trip through [emit] *)





(** ** [emit] *)

(** C9 (as amended): when the socket handle is null or [isConnected] is
    false, [emit] returns normally and leaves the whole state, the wire
    included, as it was.  Otherwise [emit] hands the serialised envelope to
    [send] on the socket the handle refers to, whatever the state of that
    socket: on an open socket the call returns normally and its only effect
    is that frame on the wire of that socket; on a socket that is still
    connecting [send] throws to the caller of [emit] and nothing is sent;
    on a socket that is closing or closed nothing is sent and the call
    returns normally.  The envelope of a single payload has that payload as
    its [data]. *)
Theorem emit_sends_only_when_open (w : world) (eventName : string)
  (args : list value) :
  (socket (svc w) = None \/ isConnected (svc w) = false ->
   emit eventName args w = (w, Normal)) /\
  (forall id s,
     socket (svc w) = Some id -> isConnected (svc w) = true ->
     sockets w !! id = Some s ->
     emit eventName args w =
     match ws_state s with
     | WS_OPEN =>
         (set_wire (wire w ++ [(id, JSON.stringify (envelope eventName args))]) w,
          Normal)
     | WS_CONNECTING => (w, Thrown "InvalidStateError")
     | WS_CLOSING | WS_CLOSED => (w, Normal)
     end) /\
  (forall payload,
     envelope eventName [payload] =
     VObj [("event", VStr eventName); ("data", payload)]).
Proof.
  split; [|split].
  - unfold emit. intros [H|H].
    + rewrite H. reflexivity.
    + rewrite H. destruct (socket (svc w)); reflexivity.
  - intros id s Hso Hic Hs. unfold emit, WebSocket_send.
    rewrite Hso, Hic, Hs. destruct (ws_state s); reflexivity.
  - reflexivity.
Qed.

Lemma emit_sends_only_when_open_witness :
  emit "roomUpdate:42" [occupied] w_not_connected = (w_not_connected, Normal) /\
  emit "roomUpdate:42" [occupied] w_connected =
    (set_wire (wire w_connected ++ [(0%nat, occupied_frame)]) w_connected, Normal).
Proof.
  split.
  - apply (emit_sends_only_when_open w_not_connected "roomUpdate:42" [occupied]).
    right. reflexivity.
  - apply (proj1 (proj2 (emit_sends_only_when_open w_connected
                           "roomUpdate:42" [occupied]))
             0%nat open_socket_0);
      vm_compute; reflexivity.
Defined.

(** C9 (as stated) fails where the handle is set and [isConnected] is true
    but the socket behind the handle is not open.  The guard of [emit] does
    not look at the state of the socket, and [isConnected] is not tied to
    the handle: with two sockets created by two calls of [connect], the open
    event of the first sets [isConnected] while the handle refers to the
    second, which is still connecting.  [send] then throws to the caller of
    [emit] and no frame is sent. *)
Lemma emit_on_connecting_socket_throws :
  let w := after development [Connect; Connect; SocketOpen 0] in
  run development initial [Connect; Connect; SocketOpen 0] = Some w /\
  socket (svc w) = Some 1%nat /\
  isConnected (svc w) = true /\
  (ws_state <$> sockets w !! 1%nat) = Some WS_CONNECTING /\
  emit "roomUpdate:42" [occupied] w = (w, Thrown "InvalidStateError") /\
  wire w = [].
Proof.
  vm_compute. repeat split.
Qed.

(** ** The listener registry as a list replay *)

Lemma indexOf_from_spec (l : list callback) (cb : callback) (i : Z) :
  (indexOf_from l cb i = -1 /\ remove_first cb l = l) \/
  (i <= indexOf_from l cb i /\
   delete (Z.to_nat (indexOf_from l cb i - i)) l = remove_first cb l).
Proof.
  revert i. induction l as [|c rest IH]; intros i; cbn.
  - left. split; reflexivity.
  - destruct (decide (c = cb)) as [->|Hne].
    + right. split; [lia|]. rewrite Z.sub_diag. reflexivity.
    + destruct (IH (i + 1)) as [[H1 H2]|[H1 H2]].
      * left. rewrite H1, H2. split; reflexivity.
      * right. split; [lia|].
        replace (Z.to_nat (indexOf_from rest cb (i + 1) - i))
          with (S (Z.to_nat (indexOf_from rest cb (i + 1) - (i + 1)))) by lia.
        rewrite <- H2. reflexivity.
Qed.

(** [indexOf] followed by a guarded [splice] removes the first match. *)
Lemma splice_indexOf (l : list callback) (cb : callback) :
  (if indexOf l cb >? -1 then splice1 (indexOf l cb) l else l) =
  remove_first cb l.
Proof.
  unfold indexOf, splice1.
  destruct (indexOf_from_spec l cb 0) as [[H1 H2]|[H1 H2]].
  - rewrite H1, H2. reflexivity.
  - rewrite Z.sub_0_r in H2.
    destruct (indexOf_from l cb 0 >? -1) eqn:E; [exact H2|].
    rewrite Z.gtb_ltb in E. apply Z.ltb_ge in E. lia.
Qed.

Lemma remove_first_absent (cb : callback) (l : list callback) :
  cb ∉ l -> remove_first cb l = l.
Proof.
  induction l as [|c rest IH]; cbn; [reflexivity|].
  intros Hn. destruct (decide (c = cb)) as [->|Hne].
  - exfalso. apply Hn. left.
  - rewrite IH; [reflexivity|]. intros Hin. apply Hn. right. exact Hin.
Qed.

Lemma indexOf_absent (cb : callback) (l : list callback) :
  cb ∉ l -> indexOf l cb = -1.
Proof.
  unfold indexOf. generalize 0.
  induction l as [|c rest IH]; intros i Hn; cbn; [reflexivity|].
  destruct (decide (c = cb)) as [->|Hne].
  - exfalso. apply Hn. left.
  - apply IH. intros Hin. apply Hn. right. exact Hin.
Qed.

Lemma addListener_listeners (key name : string) (cb : callback) (w : world) :
  listeners_of key (addListener name cb w) =
  if String.eqb name key then listeners_of key w ++ [cb] else listeners_of key w.
Proof.
  unfold listeners_of, addListener.
  destruct (String.eqb_spec name key) as [->|Hne].
  - destruct (eventListeners (svc w) !! key) as [l|] eqn:E; cbn.
    + rewrite lookup_alter_eq, E. reflexivity.
    + rewrite lookup_alter_eq, lookup_insert_eq. reflexivity.
  - destruct (eventListeners (svc w) !! name) as [l|] eqn:E; cbn.
    + rewrite lookup_alter_ne by exact Hne. reflexivity.
    + rewrite lookup_alter_ne, lookup_insert_ne by exact Hne. reflexivity.
Qed.

Lemma removeListener_listeners (key name : string) (cb : option callback)
  (w : world) :
  listeners_of key (removeListener name cb w) =
  if String.eqb name key
  then replay_op (listeners_of key w) (RemoveFirst cb)
  else listeners_of key w.
Proof.
  unfold listeners_of, removeListener.
  destruct cb as [cb|]; [|destruct (String.eqb name key); reflexivity].
  destruct (String.eqb_spec name key) as [->|Hne].
  - destruct (eventListeners (svc w) !! key) as [l|] eqn:E; cbn;
      [|rewrite E; reflexivity].
    rewrite <- splice_indexOf.
    destruct (indexOf l cb >? -1); cbn.
    + rewrite lookup_alter_eq, E. reflexivity.
    + rewrite E. reflexivity.
  - destruct (eventListeners (svc w) !! name) as [l|] eqn:E; [|reflexivity].
    destruct (indexOf l cb >? -1); cbn; [|reflexivity].
    rewrite lookup_alter_ne by exact Hne. reflexivity.
Qed.

Lemma connect_listeners (env : environment) (w : world) :
  eventListeners (svc (connect env w)) = eventListeners (svc w).
Proof. frame. Qed.

Lemma connectWebSocket_listeners (env : environment) (w : world) :
  eventListeners (svc (connectWebSocket env w)) = eventListeners (svc w).
Proof. frame. Qed.

Lemma socket_onclose_listeners (t : nat) (code : Z) (w : world) :
  eventListeners (svc (socket_onclose t code w)) = eventListeners (svc w).
Proof. frame. Qed.

Lemma socket_onopen_listeners (t : nat) (w : world) :
  eventListeners (svc (socket_onopen t w)) = eventListeners (svc w).
Proof. frame. Qed.

Lemma socket_onerror_listeners (t : nat) (w : world) :
  eventListeners (svc (socket_onerror t w)) = eventListeners (svc w).
Proof. frame. Qed.

Lemma connectSSE_listeners (env : environment) (h : string) (w : world) :
  eventListeners (svc (connectSSE env h w)) = eventListeners (svc w).
Proof. frame. Qed.

Lemma eventSource_onerror_listeners (id : nat) (h : string) (w : world) :
  eventListeners (svc (eventSource_onerror id h w)) = eventListeners (svc w).
Proof. frame. Qed.

Lemma retrySSE_fired_listeners (env : environment) (h : string) (w : world) :
  eventListeners (svc (retrySSE_fired env h w)) = eventListeners (svc w).
Proof. frame. Qed.

Lemma connectionTimeout_fired_listeners (w : world) :
  eventListeners (svc (connectionTimeout_fired w)) = eventListeners (svc w).
Proof. frame. Qed.

Lemma emit_listeners (n : string) (args : list value) (w : world) :
  eventListeners (svc (fst (emit n args w))) = eventListeners (svc w).
Proof. frame. Qed.

Lemma onmessage_listeners (raw : string) (w : world) :
  eventListeners (svc (onmessage raw w)) = eventListeners (svc w).
Proof. unfold onmessage. repeat case_match; reflexivity. Qed.

Lemma listeners_of_eq (key : string) (w w' : world) :
  eventListeners (svc w') = eventListeners (svc w) ->
  listeners_of key w' = listeners_of key w.
Proof. unfold listeners_of. intros ->. reflexivity. Qed.

Lemma subscribe_listeners (env : environment) (key name h : string)
  (cb : callback) (w : world) :
  listeners_of key
    (let w := addListener name cb w in
     if useSSE (svc w) then connectSSE env h w
     else match socket (svc w) with
          | None => connect env w
          | Some _ => w
          end) =
  if String.eqb name key then listeners_of key w ++ [cb] else listeners_of key w.
Proof.
  rewrite <- addListener_listeners. apply listeners_of_eq. cbv zeta.
  destruct (useSSE (svc (addListener name cb w))).
  - apply connectSSE_listeners.
  - destruct (socket (svc (addListener name cb w))); [reflexivity|].
    apply connect_listeners.
Qed.

(** Every event other than [disconnect] acts on the list of a key as its
    registry operation does, and not at all when it has none. *)
Lemma step_listeners (env : environment) (key : string) (w w' : world)
  (e : event) :
  step env w e = Some w' -> e <> Disconnect ->
  listeners_of key w' =
  match registry_op_of key e with
  | Some op => replay_op (listeners_of key w) op
  | None => listeners_of key w
  end.
Proof.
  intros Hs Hd. destruct e; cbn [step] in Hs; cbn [registry_op_of];
    try congruence.
  - injection Hs as <-. apply listeners_of_eq, connect_listeners.
  - injection Hs as <-. unfold onRoomUpdate.
    rewrite subscribe_listeners. destruct (String.eqb _ key); reflexivity.
  - injection Hs as <-. unfold offRoomUpdate.
    rewrite removeListener_listeners. destruct (String.eqb _ key); reflexivity.
  - injection Hs as <-. unfold onActivityUpdate.
    rewrite subscribe_listeners. destruct (String.eqb _ key); reflexivity.
  - injection Hs as <-. unfold offActivityUpdate.
    rewrite removeListener_listeners. destruct (String.eqb _ key); reflexivity.
  - injection Hs as <-. unfold on. rewrite addListener_listeners.
    assert (H : listeners_of key
                  match socket (svc w) with
                  | Some _ => w
                  | None => connect env w
                  end = listeners_of key w).
    { destruct (socket (svc w)); [reflexivity|].
      apply listeners_of_eq, connect_listeners. }
    rewrite H. destruct (String.eqb _ key); reflexivity.
  - injection Hs as <-. unfold off.
    rewrite removeListener_listeners. destruct (String.eqb _ key); reflexivity.
  - injection Hs as <-. apply listeners_of_eq, emit_listeners.
  - destruct (sockets w !! id) as [s|]; [|discriminate].
    destruct (ws_state s); try discriminate. injection Hs as <-.
    apply listeners_of_eq. rewrite socket_onopen_listeners. reflexivity.
  - destruct (sockets w !! id) as [s|]; [|discriminate].
    destruct (ws_close_fired s); [discriminate|]. injection Hs as <-.
    apply listeners_of_eq. rewrite socket_onclose_listeners. reflexivity.
  - destruct (sockets w !! id) as [s|]; [|discriminate].
    destruct (ws_close_fired s); [discriminate|]. injection Hs as <-.
    apply listeners_of_eq. rewrite socket_onerror_listeners. reflexivity.
  - destruct (sockets w !! id) as [s|]; [|discriminate].
    destruct (ws_state s); try discriminate. injection Hs as <-.
    apply listeners_of_eq, onmessage_listeners.
  - destruct (streams w !! id) as [s|]; [|discriminate].
    destruct (es_state s); try discriminate. injection Hs as <-.
    reflexivity.
  - destruct (streams w !! id) as [s|]; [|discriminate].
    destruct (es_state s); try discriminate; injection Hs as <-;
      apply listeners_of_eq; rewrite eventSource_onerror_listeners; reflexivity.
  - destruct (streams w !! id) as [s|]; [|discriminate].
    destruct (es_state s); try discriminate. injection Hs as <-.
    apply listeners_of_eq, onmessage_listeners.
  - destruct (find_timer id w) as [t|]; [|discriminate].
    destruct (timer_due t <=? now w); [|discriminate]. injection Hs as <-.
    apply listeners_of_eq. destruct (timer_task t); cbn [run_task].
    + rewrite connectionTimeout_fired_listeners. reflexivity.
    + rewrite connectWebSocket_listeners. reflexivity.
    + rewrite retrySSE_fired_listeners. reflexivity.
  - destruct (0 <=? dt); [|discriminate]. injection Hs as <-. reflexivity.
Qed.

Lemma run_listeners (env : environment) (key : string) (es : list event)
  (w w' : world) :
  run env w es = Some w' -> Disconnect ∉ es ->
  listeners_of key w' =
  replay (omap (registry_op_of key) es) (listeners_of key w).
Proof.
  revert w. induction es as [|e es IH]; intros w Hr Hd; cbn in Hr.
  - injection Hr as <-. reflexivity.
  - destruct (step env w e) as [w1|] eqn:Hs; [|discriminate].
    assert (He : e <> Disconnect).
    { intros ->. apply Hd. left. }
    assert (Hd' : Disconnect ∉ es).
    { intros Hin. apply Hd. right. exact Hin. }
    rewrite (IH w1 Hr Hd'), (step_listeners env key w w1 e Hs He).
    change (omap (registry_op_of key) (e :: es))
      with (match registry_op_of key e with
            | Some op => op :: omap (registry_op_of key) es
            | None => omap (registry_op_of key) es
            end).
    destruct (registry_op_of key e); reflexivity.
Qed.

Lemma run_subscriptions_total (env : environment) (key : string)
  (es : list event) (w : world) :
  Forall (fun e => is_Some (registry_op_of key e)) es ->
  exists w', run env w es = Some w'.
Proof.
  intros H. revert w. induction H as [|e es [op He] _ IH]; intros w.
  - exists w. reflexivity.
  - destruct e; cbn in He; try discriminate; cbn [run step]; apply IH.
Qed.

(** C6: for every key and every sequence of subscribe and unsubscribe
    calls on that key, through [on] and [off] or through the room and
    activity variants, from any state, the calls all return and the list of
    the key afterwards is the replay, in call order, of an append for each
    subscribe and of the removal of the first equal reference for each
    unsubscribe.  An unsubscribe without a callback, on a key that is not in
    the registry, or of a callback that is not in the list returns the state
    unchanged. *)
Theorem subscriptions_replay (env : environment) (key : string) :
  (forall (es : list event) (w : world),
     Forall (fun e => is_Some (registry_op_of key e)) es ->
     exists w',
       run env w es = Some w' /\
       listeners_of key w' =
       replay (omap (registry_op_of key) es) (listeners_of key w)) /\
  (forall w, off key None w = w) /\
  (forall w cb, eventListeners (svc w) !! key = None -> off key (Some cb) w = w) /\
  (forall w cb l,
     eventListeners (svc w) !! key = Some l -> cb ∉ l ->
     off key (Some cb) w = w).
Proof.
  split; [|split; [|split]].
  - intros es w H.
    destruct (run_subscriptions_total env key es w H) as [w' Hr].
    exists w'. split; [exact Hr|].
    apply (run_listeners env key es w w' Hr).
    intros Hin. rewrite Forall_forall in H.
    destruct (H Disconnect Hin) as [op Hop]. discriminate.
  - reflexivity.
  - intros w cb H. unfold off, removeListener. rewrite H. reflexivity.
  - intros w cb l H Hn. unfold off, removeListener.
    rewrite H, (indexOf_absent cb l Hn). reflexivity.
Qed.

Lemma subscriptions_replay_witness :
  exists w',
    run development initial room42_calls = Some w' /\
    listeners_of "roomUpdate:42" w' =
    replay (omap (registry_op_of "roomUpdate:42") room42_calls)
      (listeners_of "roomUpdate:42" initial).
Proof.
  apply (proj1 (subscriptions_replay development "roomUpdate:42")).
  unfold room42_calls. repeat constructor; vm_compute; eexists; reflexivity.
Defined.

Example room42_calls_result :
  listeners_of "roomUpdate:42" (after development room42_calls) = [cbB; cbA].
Proof. vm_compute. reflexivity. Qed.

(** ** Production never constructs a WebSocket *)

Lemma forallb_filter_true {A} (p q : A -> bool) (l : list A) :
  forallb p l = true -> forallb p (List.filter q l) = true.
Proof.
  induction l as [|x l IH]; cbn; [reflexivity|].
  intros [Hx Hl]%andb_true_iff. destruct (q x); cbn; [rewrite Hx|]; auto.
Qed.

Lemma clearTimeout_no_websocket (id : nat) (w : world) :
  no_websocket w -> no_websocket (clearTimeout id w).
Proof.
  unfold no_websocket, clearTimeout; cbn. intros (-> & -> & Ht).
  repeat split. apply forallb_filter_true, Ht.
Qed.

Lemma switchToSSE_no_websocket (w : world) :
  no_websocket w -> no_websocket (switchToSSE w).
Proof.
  unfold no_websocket. intros (Hs & Hso & Ht).
  rewrite switchToSSE_svc. cbn. unfold switchToSSE, closeSocket. cbn.
  rewrite Hso. unfold clearReconnectTimer. cbn.
  destruct (reconnectTimer (svc w)); cbn; repeat split; auto.
  apply forallb_filter_true, Ht.
Qed.

Lemma connect_no_websocket (env : environment) (w : world) :
  IS_PRODUCTION env = true -> no_websocket w -> no_websocket (connect env w).
Proof.
  intros Hp Hn. unfold connect. destruct Hn as (Hs & Hso & Ht).
  rewrite Hso, Hp. cbn.
  destruct (useSSE (svc w)); cbn.
  - repeat split; assumption.
  - apply switchToSSE_no_websocket. repeat split; assumption.
Qed.

Lemma connectSSE_no_websocket (env : environment) (h : string) (w : world) :
  no_websocket w -> no_websocket (connectSSE env h w).
Proof. unfold no_websocket, connectSSE. intros H. repeat case_match; cbn; exact H. Qed.

Lemma addListener_no_websocket (name : string) (cb : callback) (w : world) :
  no_websocket w -> no_websocket (addListener name cb w).
Proof. unfold no_websocket, addListener. intros H. repeat case_match; cbn; exact H. Qed.

Lemma removeListener_no_websocket (name : string) (cb : option callback)
  (w : world) :
  no_websocket w -> no_websocket (removeListener name cb w).
Proof. unfold no_websocket, removeListener. intros H. repeat case_match; cbn; exact H. Qed.

Lemma onmessage_no_websocket (raw : string) (w : world) :
  no_websocket w -> no_websocket (onmessage raw w).
Proof. unfold no_websocket, onmessage. intros H. repeat case_match; cbn; exact H. Qed.

Lemma retrySSE_fired_no_websocket (env : environment) (h : string)
  (w : world) :
  no_websocket w -> no_websocket (retrySSE_fired env h w).
Proof.
  unfold retrySSE_fired. intros H. repeat case_match; try exact H.
  apply connectSSE_no_websocket. exact H.
Qed.

Lemma eventSource_onerror_no_websocket (id : nat) (h : string) (w : world) :
  no_websocket w -> no_websocket (eventSource_onerror id h w).
Proof.
  unfold no_websocket, eventSource_onerror, setTimeout. cbn.
  intros (Hs & Hso & Ht).
  repeat case_match; cbn; repeat split; try assumption.
  rewrite forallb_app, Ht. reflexivity.
Qed.

Lemma disconnect_no_websocket (w : world) :
  no_websocket w -> no_websocket (disconnect w).
Proof.
  unfold no_websocket. intros (Hs & Hso & Ht).
  rewrite disconnect_svc, disconnect_timers. split; [|split; [reflexivity|]].
  - unfold disconnect. cbn.
    destruct (closeStreams_fields
                (closeSocket (clearPollingInterval (clearReconnectTimer w))))
      as (-> & _).
    unfold closeSocket, clearPollingInterval, clearReconnectTimer.
    repeat (case_match; cbn); try assumption.
    all: cbn in *; try congruence.
  - unfold clearPollingInterval, clearReconnectTimer.
    repeat (case_match; cbn); try assumption;
      repeat apply forallb_filter_true; assumption.
Qed.

Lemma subscribe_no_websocket (env : environment) (name h : string)
  (cb : callback) (w : world) :
  IS_PRODUCTION env = true -> no_websocket w ->
  no_websocket
    (let w := addListener name cb w in
     if useSSE (svc w) then connectSSE env h w
     else match socket (svc w) with
          | None => connect env w
          | Some _ => w
          end).
Proof.
  intros Hp Hn. cbv zeta.
  pose proof (addListener_no_websocket name cb w Hn) as Ha.
  destruct (useSSE (svc (addListener name cb w))).
  - apply connectSSE_no_websocket, Ha.
  - destruct (socket (svc (addListener name cb w))); [exact Ha|].
    apply connect_no_websocket; assumption.
Qed.

Lemma find_timer_retry (id : nat) (t : timer) (w : world) :
  no_websocket w -> find_timer id w = Some t -> is_retry t = true.
Proof.
  intros (_ & _ & Ht) Hf. unfold find_timer in Hf.
  apply find_some in Hf as [Hin _].
  rewrite forallb_forall in Ht. apply Ht, Hin.
Qed.

(** In production every event keeps the service without a WebSocket: none
    has been constructed, the handle is null and no pending timer would
    construct one. *)
Lemma step_no_websocket (env : environment) (w w' : world) (e : event) :
  IS_PRODUCTION env = true -> no_websocket w -> step env w e = Some w' ->
  no_websocket w'.
Proof.
  intros Hp Hn Hs. destruct e; cbn [step] in Hs.
  - injection Hs as <-. apply connect_no_websocket; assumption.
  - injection Hs as <-. apply disconnect_no_websocket, Hn.
  - injection Hs as <-. apply subscribe_no_websocket; assumption.
  - injection Hs as <-. apply removeListener_no_websocket, Hn.
  - injection Hs as <-. apply subscribe_no_websocket; assumption.
  - injection Hs as <-. apply removeListener_no_websocket, Hn.
  - injection Hs as <-. unfold on. apply addListener_no_websocket.
    destruct (socket (svc w)); [exact Hn|]. apply connect_no_websocket; assumption.
  - injection Hs as <-. apply removeListener_no_websocket, Hn.
  - injection Hs as <-. unfold emit. destruct Hn as (Hs & Hso & Ht).
    rewrite Hso. repeat split; assumption.
  - destruct Hn as (Hs' & _). rewrite Hs' in Hs. discriminate.
  - destruct Hn as (Hs' & _). rewrite Hs' in Hs. discriminate.
  - destruct Hn as (Hs' & _). rewrite Hs' in Hs. discriminate.
  - destruct Hn as (Hs' & _). rewrite Hs' in Hs. discriminate.
  - destruct (streams w !! id) as [s|]; [|discriminate].
    destruct (es_state s); try discriminate. injection Hs as <-. exact Hn.
  - destruct (streams w !! id) as [s|]; [|discriminate].
    destruct (es_state s); try discriminate; injection Hs as <-;
      apply eventSource_onerror_no_websocket; exact Hn.
  - destruct (streams w !! id) as [s|]; [|discriminate].
    destruct (es_state s); try discriminate. injection Hs as <-.
    apply onmessage_no_websocket, Hn.
  - destruct (find_timer id w) as [t|] eqn:Hf; [|discriminate].
    destruct (timer_due t <=? now w); [|discriminate]. injection Hs as <-.
    pose proof (find_timer_retry id t w Hn Hf) as Hr. unfold is_retry in Hr.
    destruct (timer_task t); try discriminate. cbn [run_task].
    apply retrySSE_fired_no_websocket, clearTimeout_no_websocket, Hn.
  - destruct (0 <=? dt); [|discriminate]. injection Hs as <-. exact Hn.
Qed.

Lemma run_no_websocket (env : environment) (es : list event) (w w' : world) :
  IS_PRODUCTION env = true -> no_websocket w -> run env w es = Some w' ->
  no_websocket w'.
Proof.
  intros Hp. revert w. induction es as [|e es IH]; intros w Hn Hr; cbn in Hr.
  - injection Hr as <-. exact Hn.
  - destruct (step env w e) as [w1|] eqn:Hs; [|discriminate].
    apply (IH w1); [|exact Hr].
    apply (step_no_websocket env w w1 e); assumption.
Qed.

Lemma initial_no_websocket : no_websocket initial.
Proof. repeat split. Qed.

(** C5: in production, in any state the service can be in with fallback
    mode not active, [connect] leaves the service in fallback mode with
    [isConnected] false; no WebSocket has been constructed up to and by the
    call and none is constructed by anything that happens afterwards, so
    that no open event of a WebSocket can occur and set [isConnected]. *)
Theorem production_connect_skips_websocket (env : environment) (w : world) :
  IS_PRODUCTION env = true ->
  reachable env w ->
  useSSE (svc w) = false ->
  useSSE (svc (connect env w)) = true /\
  isConnected (svc (connect env w)) = false /\
  getSocket (connect env w) = None /\
  sockets (connect env w) = [] /\
  (forall es w', run env (connect env w) es = Some w' ->
     sockets w' = [] /\ getSocket w' = None /\
     forall id, step env w' (SocketOpen id) = None).
Proof.
  intros Hp [es0 Hr] Hu.
  pose proof (run_no_websocket env es0 initial w Hp initial_no_websocket Hr)
    as Hn.
  pose proof (connect_no_websocket env w Hp Hn) as Hc.
  assert (He : connect env w = switchToSSE w).
  { unfold connect. destruct Hn as (_ & -> & _). rewrite Hp, Hu. reflexivity. }
  split; [rewrite He, switchToSSE_svc; reflexivity|].
  split; [rewrite He, switchToSSE_svc; reflexivity|].
  split; [exact (proj1 (proj2 Hc))|].
  split; [exact (proj1 Hc)|].
  intros es w' Hr'.
  destruct (run_no_websocket env es _ w' Hp Hc Hr') as (Hs & Hso & _).
  split; [exact Hs|]. split; [exact Hso|].
  intros id. cbn [step]. rewrite Hs. reflexivity.
Qed.

Lemma production_connect_skips_websocket_witness :
  let w := after production
             [Connect; OnRoomUpdate "7" cbA; StreamOpen 0; Disconnect] in
  useSSE (svc (connect production w)) = true /\
  isConnected (svc (connect production w)) = false /\
  getSocket (connect production w) = None /\
  sockets (connect production w) = [] /\
  (forall es w', run production (connect production w) es = Some w' ->
     sockets w' = [] /\ getSocket w' = None /\
     forall id, step production w' (SocketOpen id) = None).
Proof.
  intros w. apply (production_connect_skips_websocket production w).
  - reflexivity.
  - exists [Connect; OnRoomUpdate "7" cbA; StreamOpen 0; Disconnect].
    vm_compute. reflexivity.
  - vm_compute. reflexivity.
Defined.

(** ** The connected flag in fallback mode *)

(** C10: the open event of a stream sets the flag that [isSocketConnected]
    returns and leaves the socket handle as it was.  When the handle is
    null, as it is in every state that production can reach, the query
    answers true although [emit] delivers nothing: every [emit] returns
    normally with the state, the wire included, unchanged. *)
Theorem stream_open_reports_connected (env : environment) (w w' : world)
  (id : nat) :
  step env w (StreamOpen id) = Some w' ->
  isSocketConnected w' = true /\
  getSocket w' = getSocket w /\
  (getSocket w = None ->
   forall eventName args, emit eventName args w' = (w', Normal)) /\
  (IS_PRODUCTION env = true -> reachable env w -> getSocket w' = None).
Proof.
  intros Hs. pose proof Hs as Hs'. revert Hs.
  unfold step. destruct (streams w !! id) as [e|]; [|discriminate].
  destruct (es_state e); try discriminate. intros [= <-].
  split; [reflexivity|]. split; [reflexivity|]. split.
  - intros Hn eventName args. unfold emit, getSocket in *. cbn.
    rewrite Hn. reflexivity.
  - intros Hp [es Hr].
    exact (proj1 (proj2 (run_no_websocket env es initial w Hp
                           initial_no_websocket Hr))).
Qed.

Lemma stream_open_reports_connected_witness :
  step production w_one_stream (StreamOpen 0) = Some w_stream_open /\
  isSocketConnected w_one_stream = false /\
  isSocketConnected w_stream_open = true /\
  getSocket w_stream_open = None /\
  emit "roomUpdate:7" [occupied] w_stream_open = (w_stream_open, Normal).
Proof.
  assert (Hs : step production w_one_stream (StreamOpen 0) = Some w_stream_open)
    by (vm_compute; reflexivity).
  destruct (stream_open_reports_connected production _ _ 0 Hs)
    as (H1 & H2 & H3 & _).
  split; [exact Hs|]. split; [reflexivity|]. split; [exact H1|].
  split; [rewrite H2; reflexivity|].
  apply H3. reflexivity.
Defined.

(** ** Streams per topic *)

(** A subscription to a topic that is in [sseConnections] opens no
    stream. *)
Lemma connectSSE_streamed_topic (env : environment) (hotelId : string)
  (id : nat) (w : world) :
  sseConnections (svc w) !! hotelId = Some id ->
  connectSSE env hotelId w = w.
Proof. intros H. unfold connectSSE. rewrite H. reflexivity. Qed.

Lemma onRoomUpdate_streamed_topic (env : environment) (hotelId : string)
  (id : nat) (cb : callback) (w : world) :
  useSSE (svc w) = true ->
  sseConnections (svc w) !! hotelId = Some id ->
  streams (onRoomUpdate env hotelId cb w) = streams w /\
  sseConnections (svc (onRoomUpdate env hotelId cb w)) = sseConnections (svc w).
Proof.
  intros Hu Hl. unfold onRoomUpdate.
  assert (Ha : useSSE (svc (addListener ("roomUpdate:" +:+ hotelId) cb w)) = true
               /\ sseConnections (svc (addListener ("roomUpdate:" +:+ hotelId) cb w))
                  = sseConnections (svc w)
               /\ streams (addListener ("roomUpdate:" +:+ hotelId) cb w) = streams w).
  { unfold addListener. case_match; cbn; auto. }
  destruct Ha as (Ha1 & Ha2 & Ha3). cbv zeta. rewrite Ha1.
  rewrite (connectSSE_streamed_topic env hotelId id) by (rewrite Ha2; exact Hl).
  split; assumption.
Qed.

Lemma addListener_frame (name : string) (cb : callback) (w : world) :
  useSSE (svc (addListener name cb w)) = useSSE (svc w) /\
  sseConnections (svc (addListener name cb w)) = sseConnections (svc w) /\
  streams (addListener name cb w) = streams w.
Proof. unfold addListener. case_match; cbn; auto. Qed.

Lemma subscribe_in_fallback (env : environment) (hotelId : string) (e : event)
  (w : world) :
  useSSE (svc w) = true -> subscribes_to hotelId e ->
  exists w1,
    step env w e = Some (connectSSE env hotelId w1) /\
    useSSE (svc w1) = true /\
    sseConnections (svc w1) = sseConnections (svc w) /\
    streams w1 = streams w.
Proof.
  intros Hu [cb [-> | ->]]; cbn [step].
  - exists (addListener ("roomUpdate:" +:+ hotelId) cb w).
    destruct (addListener_frame ("roomUpdate:" +:+ hotelId) cb w) as (H1 & H2 & H3).
    unfold onRoomUpdate. cbv zeta. rewrite H1, Hu. auto.
  - exists (addListener ("activityUpdate:" +:+ hotelId) cb w).
    destruct (addListener_frame ("activityUpdate:" +:+ hotelId) cb w) as (H1 & H2 & H3).
    unfold onActivityUpdate. cbv zeta. rewrite H1, Hu. auto.
Qed.

Lemma connectSSE_cases (env : environment) (hotelId : string) (w : world) :
  useSSE (svc (connectSSE env hotelId w)) = useSSE (svc w) /\
  ((streams (connectSSE env hotelId w) = streams w /\
    sseConnections (svc (connectSSE env hotelId w)) = sseConnections (svc w)) \/
   (sseConnections (svc w) !! hotelId = None /\
    length (streams (connectSSE env hotelId w)) = S (length (streams w)) /\
    is_Some (sseConnections (svc (connectSSE env hotelId w)) !! hotelId))).
Proof.
  unfold connectSSE. destruct (sseConnections (svc w) !! hotelId) eqn:E.
  - split; [reflexivity|]. left. split; reflexivity.
  - destruct (EventSource_available env); cbn.
    + split; [reflexivity|]. right. split; [reflexivity|]. split.
      * rewrite length_app. cbn. lia.
      * rewrite lookup_insert_eq. eexists. reflexivity.
    + split; [reflexivity|]. left. split; reflexivity.
Qed.

Lemma subscribes_to_streamed_topic (env : environment) (hotelId : string)
  (es : list event) (w : world) :
  useSSE (svc w) = true ->
  is_Some (sseConnections (svc w) !! hotelId) ->
  Forall (subscribes_to hotelId) es ->
  exists w', run env w es = Some w' /\ streams w' = streams w.
Proof.
  intros Hu Hl H. revert w Hu Hl.
  induction H as [|e es He _ IH]; intros w Hu Hl.
  - exists w. split; reflexivity.
  - destruct (subscribe_in_fallback env hotelId e w Hu He)
      as (w1 & Hs & Hu1 & Hc1 & Hs1).
    destruct Hl as [id Hid].
    rewrite (connectSSE_streamed_topic env hotelId id) in Hs
      by (rewrite Hc1; exact Hid).
    destruct (IH w1) as (w' & Hr & Hst).
    + exact Hu1.
    + rewrite Hc1. eexists. exact Hid.
    + exists w'. cbn [run]. rewrite Hs. split; [exact Hr|]. congruence.
Qed.

(** Subscriptions to one topic in fallback mode, with nothing happening in
    between, open at most one stream. *)
Lemma subscribes_open_at_most_one_stream (env : environment)
  (hotelId : string) (es : list event) (w : world) :
  useSSE (svc w) = true ->
  Forall (subscribes_to hotelId) es ->
  exists w',
    run env w es = Some w' /\
    (length (streams w') <= S (length (streams w)))%nat.
Proof.
  intros Hu H. revert w Hu.
  induction H as [|e es He Hes IH]; intros w Hu.
  - exists w. split; [reflexivity|]. lia.
  - destruct (subscribe_in_fallback env hotelId e w Hu He)
      as (w1 & Hs & Hu1 & Hc1 & Hs1).
    destruct (connectSSE_cases env hotelId w1) as (Hu2 & [[Hst Hcn]|(Hn & Hlen & Hsome)]).
    + destruct (IH (connectSSE env hotelId w1)) as (w' & Hr & Hle).
      * rewrite Hu2. exact Hu1.
      * exists w'. cbn [run]. rewrite Hs. split; [exact Hr|].
        rewrite Hst, Hs1 in Hle. exact Hle.
    + destruct (subscribes_to_streamed_topic env hotelId es
                  (connectSSE env hotelId w1)) as (w' & Hr & Hst).
      * rewrite Hu2. exact Hu1.
      * exact Hsome.
      * exact Hes.
      * exists w'. cbn [run]. rewrite Hs. split; [exact Hr|].
        rewrite Hst, Hlen, Hs1. lia.
Qed.

(** C7: two streams of one topic are open at once.  An error on a stream
    that the platform keeps alive (it reconnects by itself) removes the
    topic from [sseConnections] without closing the stream; the retry timer
    of the handler, or the next subscription to the topic, then opens a
    second stream, and the first one opens again.  A message of the topic
    then reaches the listener once per stream. *)
Theorem topic_streamed_twice :
  let w := after production stream_retried in
  let w' := after production
              (stream_retried ++
               [StreamMessage 0 room7_frame; StreamMessage 1 room7_frame]) in
  let v := after production stream_resubscribed in
  run production initial stream_retried = Some w /\
  (es_hotelId <$> open_streams "7" w) = ["7"; "7"] /\
  sseConnections (svc w) !! "7" = Some 1%nat /\
  run production w [StreamMessage 0 room7_frame; StreamMessage 1 room7_frame]
    = Some w' /\
  calls w' = [(cbA, occupied); (cbA, occupied)] /\
  run production initial stream_resubscribed = Some v /\
  (es_hotelId <$> open_streams "7" v) = ["7"; "7"].
Proof.
  vm_compute. repeat split.
Qed.

(** * Further properties of the service *)

(** ** Backoff of the stream retry *)

Lemma retryDelay_values (n : nat) :
  retryDelay n =
  match n with
  | 0%nat => 5000
  | 1%nat => 10000
  | 2%nat => 20000
  | _ => 30000
  end.
Proof.
  unfold retryDelay. destruct n as [|[|[|n]]]; try reflexivity.
  apply Z.min_r.
  replace (Z.of_nat (S (S (S n)))) with (3 + Z.of_nat n) by lia.
  rewrite Z.pow_add_r by lia.
  assert (1 <= 2 ^ Z.of_nat n) by (apply Z.pow_le_mono_r with (b := 0); lia).
  change (2 ^ 3) with 8. nia.
Qed.

(** X1: an error event on a stream removes the topic of the stream from
    [sseConnections].  When the error closed the stream no retry is
    scheduled; otherwise exactly one retry timer for the topic is added, due
    after the delay that doubles with the reconnect counter from 5 s and is
    capped at 30 s. *)
Theorem stream_error_schedules_one_retry (env : environment) (w w' : world)
  (id : nat) (failed : bool) (e : EventSource) :
  streams w !! id = Some e ->
  step env w (StreamError id failed) = Some w' ->
  sseConnections (svc w') = delete (es_hotelId e) (sseConnections (svc w)) /\
  timers w' =
    timers w ++
    (if failed then []
     else [{| timer_id := next_timer w;
              timer_due := now w + retryDelay (reconnectAttempts (svc w));
              timer_task := RetrySSE (es_hotelId e) |}]) /\
  retryDelay (reconnectAttempts (svc w)) =
    match reconnectAttempts (svc w) with
    | 0%nat => 5000
    | 1%nat => 10000
    | 2%nat => 20000
    | _ => 30000
    end.
Proof.
  intros He. cbn [step]. rewrite He. intros Hs.
  assert (Hw : w' =
               eventSource_onerror id (es_hotelId e)
                 (set_es_state (if failed then ES_CLOSED else ES_CONNECTING) id w)).
  { destruct (es_state e); congruence. }
  clear Hs. subst w'. unfold eventSource_onerror, set_es_state. cbn.
  rewrite list_lookup_alter_eq, He. cbn.
  destruct failed; cbn.
  - rewrite app_nil_r. split; [reflexivity|]. split; [reflexivity|].
    apply retryDelay_values.
  - split; [reflexivity|]. split; [reflexivity|]. apply retryDelay_values.
Qed.

Lemma stream_error_schedules_one_retry_witness :
  sseConnections (svc w_stream_7_retry) =
    delete "7" (sseConnections (svc w_stream_7_open)) /\
  timers w_stream_7_retry =
    timers w_stream_7_open ++
    [{| timer_id := next_timer w_stream_7_open;
        timer_due := now w_stream_7_open
                     + retryDelay (reconnectAttempts (svc w_stream_7_open));
        timer_task := RetrySSE "7" |}] /\
  retryDelay (reconnectAttempts (svc w_stream_7_open)) =
    match reconnectAttempts (svc w_stream_7_open) with
    | 0%nat => 5000
    | 1%nat => 10000
    | 2%nat => 20000
    | _ => 30000
    end.
Proof.
  apply (stream_error_schedules_one_retry production w_stream_7_open
           w_stream_7_retry 0 false stream_7_open);
    vm_compute; reflexivity.
Defined.

(** X2: a stream retry that fires acts only in fallback mode and only for a
    topic that is not in [sseConnections]; it then counts one attempt, and
    it opens a new stream for the topic only when the counter was 0 before.
    With the counter at 1 or more the retry opens nothing: the budget is one
    automatic reopen per reset of the counter, shared by all topics. *)
Theorem retry_reopens_only_from_zero (env : environment) (w w' : world)
  (id : nat) (t : timer) (hotelId : string) :
  find_timer id w = Some t ->
  timer_task t = RetrySSE hotelId ->
  step env w (TimerFires id) = Some w' ->
  (useSSE (svc w) = false \/ is_Some (sseConnections (svc w) !! hotelId) ->
   w' = clearTimeout id w) /\
  (useSSE (svc w) = true -> sseConnections (svc w) !! hotelId = None ->
   reconnectAttempts (svc w') = S (reconnectAttempts (svc w)) /\
   streams w' =
     streams w ++
     (if EventSource_available env
         && (reconnectAttempts (svc w) =? 0)%nat
      then [{| es_url := SOCKET_URL env +:+ "/api/events/" +:+ hotelId;
               es_hotelId := hotelId; es_state := ES_CONNECTING |}]
      else [])).
Proof.
  intros Hf Ht. cbn [step]. rewrite Hf.
  destruct (timer_due t <=? now w); [|discriminate]. intros [= <-].
  rewrite Ht. cbn [run_task]. unfold retrySSE_fired.
  change (svc (clearTimeout id w)) with (svc w).
  split.
  - intros [Hu|[x Hx]].
    + rewrite Hu. reflexivity.
    + rewrite Hx. destruct (useSSE (svc w)); reflexivity.
  - intros Hu Hn. rewrite Hu, Hn.
    destruct w as [[so ic el ra rt pi sc us] ws es ts nt n cs wi].
    cbn in Hn |- *. destruct ra as [|ra]; cbn.
    + unfold connectSSE. cbn. rewrite Hn.
      destruct (EventSource_available env); cbn.
      * split; reflexivity.
      * rewrite app_nil_r. split; reflexivity.
    + rewrite andb_false_r, app_nil_r. split; [reflexivity|].
      destruct ra; reflexivity.
Qed.

Lemma retry_reopens_only_from_zero_witness :
  reconnectAttempts (svc w_stream_7_reopened) =
    S (reconnectAttempts (svc w_stream_7_due)) /\
  streams w_stream_7_reopened =
    streams w_stream_7_due ++
    (if EventSource_available production
        && (reconnectAttempts (svc w_stream_7_due) =? 0)%nat
     then [{| es_url := SOCKET_URL production +:+ "/api/events/" +:+ "7";
              es_hotelId := "7"; es_state := ES_CONNECTING |}]
     else []).
Proof.
  assert (Hf : find_timer 1 w_stream_7_due = Some retry_timer_7)
    by (vm_compute; reflexivity).
  assert (Ht : timer_task retry_timer_7 = RetrySSE "7") by reflexivity.
  assert (Hs : step production w_stream_7_due (TimerFires 1)
               = Some w_stream_7_reopened) by (vm_compute; reflexivity).
  apply (proj2 (retry_reopens_only_from_zero production w_stream_7_due
                  w_stream_7_reopened 1 retry_timer_7 "7" Hf Ht Hs));
    vm_compute; reflexivity.
Defined.

(** ** Errors and the way out of fallback mode *)

(** X3: after an error event of a WebSocket the service is in fallback
    mode and reports not connected, whatever state it was in; the
    connection timeout of that socket is cancelled.  When the service was
    not yet in fallback mode the handle and the stored reconnect timer are
    cleared and the counter is 0. *)
Theorem socket_error_enters_fallback (env : environment) (w w' : world)
  (id : nat) (s : WebSocket) :
  sockets w !! id = Some s ->
  step env w (SocketError id) = Some w' ->
  useSSE (svc w') = true /\
  isConnected (svc w') = false /\
  find_timer (ws_connectionTimeout s) w' = None /\
  (useSSE (svc w) = false ->
   socket (svc w') = None /\ reconnectTimer (svc w') = None /\
   reconnectAttempts (svc w') = 0%nat).
Proof.
  intros Hs. cbn [step]. rewrite Hs.
  destruct (ws_close_fired s); [discriminate|]. intros [= <-].
  generalize (ws_connectionTimeout s). intros t. clear Hs s.
  destruct w as [[so ic el ra rt pi sc us] ws es ts nt n cs wi].
  unfold socket_onerror, switchToSSE, closeSocket, clearReconnectTimer,
    WebSocket_close, set_ws_state, clearTimeout, find_timer. cbn.
  assert (Hf : forall l,
             List.find (fun x => Nat.eqb (timer_id x) t)
               (List.filter (fun x => negb (Nat.eqb (timer_id x) t)) l) = None).
  { induction l as [|x l IH]; cbn; [reflexivity|].
    destruct (Nat.eqb (timer_id x) t) eqn:E; cbn; [exact IH|].
    rewrite E. exact IH. }
  assert (Hg : forall r l,
             List.find (fun x => Nat.eqb (timer_id x) t)
               (List.filter (fun x => negb (Nat.eqb (timer_id x) r))
                  (List.filter (fun x => negb (Nat.eqb (timer_id x) t)) l))
             = None).
  { intros r. induction l as [|x l IH]; cbn; [reflexivity|].
    destruct (Nat.eqb (timer_id x) t) eqn:E; cbn; [exact IH|].
    destruct (Nat.eqb (timer_id x) r); cbn; [exact IH|]. rewrite E. exact IH. }
  destruct us, so, rt; cbn; repeat split; try discriminate; auto.
Qed.

Lemma socket_error_enters_fallback_witness :
  useSSE (svc w_socket_error) = true /\
  isConnected (svc w_socket_error) = false /\
  find_timer (ws_connectionTimeout connecting_socket_0) w_socket_error = None /\
  (useSSE (svc w_connecting) = false ->
   socket (svc w_socket_error) = None /\
   reconnectTimer (svc w_socket_error) = None /\
   reconnectAttempts (svc w_socket_error) = 0%nat).
Proof.
  apply (socket_error_enters_fallback development w_connecting w_socket_error 0
           connecting_socket_0);
    vm_compute; reflexivity.
Defined.

Lemma disconnect_or_not (e : event) : e = Disconnect \/ e <> Disconnect.
Proof. destruct e; (left; reflexivity) || (right; discriminate). Qed.






(** ** The reconnect counter *)

Lemma counter_bound_step (env : environment) (w w' : world) (e : event) :
  (useSSE (svc w) = false ->
   (reconnectAttempts (svc w) <= maxReconnectAttempts)%nat) ->
  step env w e = Some w' ->
  useSSE (svc w') = false ->
  (reconnectAttempts (svc w') <= maxReconnectAttempts)%nat.
Proof.
  intros HI Hs.
  destruct (disconnect_or_not e) as [->|Hd].
  { injection Hs as <-. rewrite disconnect_svc. cbn. unfold maxReconnectAttempts. lia. }
  destruct w as [[so ic el ra rt pi sc us] ws es ts nt n cs wi].
  cbn in HI. unfold maxReconnectAttempts in *.
  destruct e; cbn [step] in Hs; try congruence;
    invert_step Hs;
    unfold_calls;
    frame;
    repeat match goal with
           | H : (_ <=? _)%nat = false |- _ => apply Nat.leb_gt in H
           | H : (_ <? _)%nat = true |- _ => apply Nat.ltb_lt in H
           end;
    intros; cbn in *;
    first [ discriminate | lia | (assert (ra <= 2)%nat by (apply HI; congruence); lia) ].
Qed.

(** X5: in every state the service can reach, outside fallback mode the
    reconnect counter is at most the ceiling [maxReconnectAttempts]. *)
Theorem reconnect_counter_bounded (env : environment) (w : world) :
  reachable env w ->
  useSSE (svc w) = false ->
  (reconnectAttempts (svc w) <= maxReconnectAttempts)%nat.
Proof.
  intros [es Hr]. revert w Hr.
  assert (H : forall es w0 w,
             (useSSE (svc w0) = false ->
              (reconnectAttempts (svc w0) <= maxReconnectAttempts)%nat) ->
             run env w0 es = Some w ->
             useSSE (svc w) = false ->
             (reconnectAttempts (svc w) <= maxReconnectAttempts)%nat).
  { clear es. induction es as [|e es IH]; intros w0 w HI Hr; cbn in Hr.
    - injection Hr as <-. exact HI.
    - destruct (step env w0 e) as [w1|] eqn:Hs; [|discriminate].
      apply (IH w1 w); [|exact Hr].
      apply (counter_bound_step env w0 w1 e HI Hs). }
  intros w Hr. apply (H es initial w); [|exact Hr].
  intros _. cbn. unfold maxReconnectAttempts. lia.
Qed.

Lemma reconnect_counter_bounded_witness :
  (reconnectAttempts (svc (after development two_failed_attempts))
   <= maxReconnectAttempts)%nat.
Proof.
  apply (reconnect_counter_bounded development).
  - exists two_failed_attempts. vm_compute. reflexivity.
  - vm_compute. reflexivity.
Defined.

(** ** Calls of [connect] *)

(** X6: [connect] changes nothing when the handle is set and the service
    is connected, and nothing in fallback mode; in production a second call
    changes nothing after the first.  Outside production and outside
    fallback mode, while [isConnected] is false, every call constructs one
    more WebSocket, points the handle at it and schedules its connection
    timeout; the sockets created before are left as they are, not closed. *)
Theorem connect_repeated (env : environment) (w : world) :
  (forall id, socket (svc w) = Some id -> isConnected (svc w) = true ->
     connect env w = w) /\
  (useSSE (svc w) = true -> connect env w = w) /\
  (IS_PRODUCTION env = true -> connect env (connect env w) = connect env w) /\
  (IS_PRODUCTION env = false -> WebSocket_available env = true ->
   useSSE (svc w) = false -> isConnected (svc w) = false ->
   sockets (connect env w) =
     sockets w ++
     [{| ws_url := wsUrl_of env; ws_state := WS_CONNECTING;
         ws_close_fired := false; ws_connectionTimeout := next_timer w |}] /\
   socket (svc (connect env w)) = Some (length (sockets w)) /\
   timers (connect env w) =
     timers w ++
     [{| timer_id := next_timer w; timer_due := now w + 3000;
         timer_task := ConnectionTimeout |}]).
Proof.
  split; [|split; [|split]].
  - intros id Hso Hic. unfold connect. rewrite Hso, Hic. reflexivity.
  - intros Hu. unfold connect. rewrite Hu, andb_false_r. cbn.
    destruct (socket (svc w)), (isConnected (svc w)); reflexivity.
  - intros Hp.
    assert (Hc : connect env w = w \/ connect env w = switchToSSE w).
    { unfold connect. rewrite Hp.
      destruct (socket (svc w)), (isConnected (svc w)), (useSSE (svc w));
        cbn; auto. }
    destruct Hc as [Hc|Hc].
    + rewrite !Hc. reflexivity.
    + rewrite Hc. unfold connect. rewrite switchToSSE_svc. cbn.
      rewrite andb_false_r. reflexivity.
  - intros Hp Ha Hu Hic. unfold connect. rewrite Hic, Hp, Hu. cbn.
    assert (He : match socket (svc w) with
                 | Some _ | _ => connectWebSocket env w
                 end = connectWebSocket env w)
      by (destruct (socket (svc w)); reflexivity).
    rewrite He. unfold connectWebSocket. rewrite Ha. cbn.
    repeat split.
Qed.

Lemma connect_repeated_witness :
  sockets (connect development w_connecting) =
    sockets w_connecting ++
    [{| ws_url := wsUrl_of development; ws_state := WS_CONNECTING;
        ws_close_fired := false;
        ws_connectionTimeout := next_timer w_connecting |}] /\
  socket (svc (connect development w_connecting)) =
    Some (length (sockets w_connecting)) /\
  timers (connect development w_connecting) =
    timers w_connecting ++
    [{| timer_id := next_timer w_connecting;
        timer_due := now w_connecting + 3000;
        timer_task := ConnectionTimeout |}].
Proof.
  apply (proj2 (proj2 (proj2 (connect_repeated development w_connecting))));
    vm_compute; reflexivity.
Defined.

(** ** Subscribing and unsubscribing *)

Lemma remove_first_app (cb : callback) (l : list callback) :
  remove_first cb (l ++ [cb]) =
  if decide (cb ∈ l) then remove_first cb l ++ [cb] else l.
Proof.
  induction l as [|c l IH]; cbn.
  - rewrite decide_True by reflexivity.
    destruct (decide (cb ∈ [])) as [H|_]; [|reflexivity].
    apply elem_of_nil in H. destruct H.
  - destruct (decide (c = cb)) as [->|Hne].
    + rewrite decide_True by left. reflexivity.
    + rewrite IH. destruct (decide (cb ∈ l)) as [Hin|Hn].
      * rewrite decide_True by (right; exact Hin). reflexivity.
      * rewrite decide_False; [reflexivity|].
        intros [Heq|Hin]%elem_of_cons; [congruence|contradiction].
Qed.

Lemma subscribe_unsubscribe_listeners (env : environment) (key : string)
  (cb : callback) (w w1 w2 : world) (e1 e2 : event) :
  registry_op_of key e1 = Some (Append cb) ->
  registry_op_of key e2 = Some (RemoveFirst (Some cb)) ->
  step env w e1 = Some w1 -> step env w1 e2 = Some w2 ->
  listeners_of key w2 =
  if decide (cb ∈ listeners_of key w)
  then remove_first cb (listeners_of key w) ++ [cb]
  else listeners_of key w.
Proof.
  intros H1 H2 Hs1 Hs2.
  assert (Hd1 : e1 <> Disconnect) by (intros ->; discriminate).
  assert (Hd2 : e2 <> Disconnect) by (intros ->; discriminate).
  rewrite (step_listeners env key w1 w2 e2 Hs2 Hd2), H2.
  rewrite (step_listeners env key w w1 e1 Hs1 Hd1), H1.
  cbn [replay_op]. apply remove_first_app.
Qed.

Lemma registry_op_of_same (name : string) (op : registry_op) :
  (if String.eqb name name then Some op else None) = Some op.
Proof. rewrite String.eqb_refl. reflexivity. Qed.

(** X7: a subscribe followed by an unsubscribe of the same callback, through
    [on]/[off] or through the room or activity pair, restores the list of
    the key when the callback was not registered before.  When it was, the
    unsubscribe removes the earlier registration and the new one stays at
    the end of the list.  The key stays in the registry either way. *)
Theorem subscribe_then_unsubscribe (env : environment) (name hotelId : string)
  (cb : callback) (w : world) :
  restored cb w name (off name (Some cb) (on env name cb w)) /\
  restored cb w ("roomUpdate:" +:+ hotelId)
    (offRoomUpdate hotelId (Some cb) (onRoomUpdate env hotelId cb w)) /\
  restored cb w ("activityUpdate:" +:+ hotelId)
    (offActivityUpdate hotelId (Some cb) (onActivityUpdate env hotelId cb w)).
Proof.
  assert (Hkey : forall key w0,
             is_Some (eventListeners (svc (addListener key cb w0)) !! key)).
  { intros key w0. unfold addListener.
    destruct (eventListeners (svc w0) !! key) as [l|] eqn:E; cbn.
    - rewrite lookup_alter_eq, E. eexists. reflexivity.
    - rewrite lookup_alter_eq, lookup_insert_eq. eexists. reflexivity. }
  assert (Hrem : forall key w0,
             is_Some (eventListeners (svc w0) !! key) ->
             is_Some (eventListeners (svc (removeListener key (Some cb) w0)) !! key)).
  { intros key w0 [l Hl]. unfold removeListener. rewrite Hl.
    destruct (indexOf l cb >? -1); cbn.
    - rewrite lookup_alter_eq, Hl. eexists. reflexivity.
    - rewrite Hl. eexists. reflexivity. }
  assert (Hsub : forall key h w0,
             is_Some (eventListeners
                        (svc (let w1 := addListener key cb w0 in
                              if useSSE (svc w1) then connectSSE env h w1
                              else match socket (svc w1) with
                                   | None => connect env w1
                                   | Some _ => w1
                                   end)) !! key)).
  { intros key h w0. cbv zeta.
    destruct (useSSE (svc (addListener key cb w0))).
    - rewrite connectSSE_listeners. apply Hkey.
    - destruct (socket (svc (addListener key cb w0))); [apply Hkey|].
      rewrite connect_listeners. apply Hkey. }
  unfold restored. split; [|split]; split.
  - eapply (subscribe_unsubscribe_listeners env name cb w _ _
             (On name cb) (Off name (Some cb)));
      try reflexivity; cbn; apply registry_op_of_same.
  - apply Hrem. unfold on. apply Hkey.
  - eapply (subscribe_unsubscribe_listeners env _ cb w _ _
             (OnRoomUpdate hotelId cb) (OffRoomUpdate hotelId (Some cb)));
      try reflexivity; cbn; apply registry_op_of_same.
  - apply Hrem, Hsub.
  - eapply (subscribe_unsubscribe_listeners env _ cb w _ _
             (OnActivityUpdate hotelId cb) (OffActivityUpdate hotelId (Some cb)));
      try reflexivity; cbn; apply registry_op_of_same.
  - apply Hrem, Hsub.
Qed.

(** ** Frames that reach no listener *)

(** X8: a frame that is not JSON, that decodes to anything but an object,
    whose [event] and [type] give no string, or whose key has no listener
    is dropped on either transport: the whole state, the log of invocations
    included, is as before. *)
Theorem undeliverable_frame_is_dropped (env : environment) (w w' : world)
  (id : nat) (raw : string) (e : event) :
  e = SocketMessage id raw \/ e = StreamMessage id raw ->
  undeliverable w raw ->
  step env w e = Some w' ->
  w' = w.
Proof.
  intros He Hu Hs.
  assert (Hw : w' = onmessage raw w).
  { destruct He; subst e; cbn in Hs.
    - destruct (sockets w !! id) as [s|]; [|discriminate].
      destruct (ws_state s); try discriminate.
      injection Hs as <-. reflexivity.
    - destruct (streams w !! id) as [s|]; [|discriminate].
      destruct (es_state s); try discriminate.
      injection Hs as <-. reflexivity. }
  subst w'. clear Hs He. unfold onmessage.
  destruct Hu as [Hp|[(d & Hp & Hd)|[(f & Hp & Hk)|(f & k & Hp & Hk & Hl)]]];
    rewrite Hp.
  - reflexivity.
  - destruct d; try reflexivity. exfalso. eapply Hd. reflexivity.
  - destruct (eventName_of (VObj f)) as [[| | |k| |]|] eqn:E; try reflexivity.
    exfalso. eapply Hk. reflexivity.
  - rewrite Hk. unfold listeners_of in Hl.
    destruct (eventListeners (svc w) !! k) as [l|]; [|reflexivity].
    cbn in Hl. subst l. cbn. rewrite app_nil_r || idtac.
    destruct w; reflexivity.
Qed.

Lemma undeliverable_frame_is_dropped_witness :
  after development (one_room_listener ++ [SocketMessage 0 room99_frame])
  = w_room_listener.
Proof.
  apply (undeliverable_frame_is_dropped development w_room_listener _ 0
           room99_frame (SocketMessage 0 room99_frame)).
  - left. reflexivity.
  - right. right. right.
    exists [("event", VStr "roomUpdate:99"); ("data", occupied)], "roomUpdate:99".
    repeat split; vm_compute; reflexivity.
  - vm_compute. reflexivity.
Defined.

(** ** Teardown *)

Lemma closeStreams_empty (w : world) :
  sseConnections (svc w) = ∅ -> closeStreams w = w.
Proof. unfold closeStreams. intros ->. apply map_fold_empty. Qed.

Lemma disconnect_calls_wire (w : world) :
  calls (disconnect w) = calls w /\ wire (disconnect w) = wire w /\
  next_timer (disconnect w) = next_timer w /\ now (disconnect w) = now w.
Proof.
  unfold disconnect. cbn.
  destruct (closeStreams_fields
              (closeSocket (clearPollingInterval (clearReconnectTimer w))))
    as (_ & _ & -> & -> & -> & ->).
  unfold closeSocket, clearPollingInterval, clearReconnectTimer.
  repeat (case_match; cbn); repeat split; reflexivity.
Qed.

(** X9: [disconnect] leaves the fields of the service as a new instance has
    them, schedules nothing (the pending timers afterwards are among those
    pending before), invokes no listener, sends nothing, and a second
    [disconnect] changes nothing. *)
Theorem disconnect_resets_and_is_idempotent (w : world) :
  svc (disconnect w) = new_SocketService /\
  disconnect (disconnect w) = disconnect w /\
  timers (disconnect w) ⊆ timers w /\
  calls (disconnect w) = calls w /\
  wire (disconnect w) = wire w.
Proof.
  split; [apply disconnect_svc|]. split; [|split; [|split]].
  - pose proof (disconnect_svc w) as Hsvc.
    generalize dependent (disconnect w). intros d Hsvc.
    unfold disconnect.
    assert (H1 : clearReconnectTimer d = d)
      by (unfold clearReconnectTimer; rewrite Hsvc; reflexivity).
    rewrite H1.
    assert (H2 : clearPollingInterval d = d)
      by (unfold clearPollingInterval; rewrite Hsvc; reflexivity).
    cbv zeta. rewrite H2.
    assert (H3 : closeSocket d = d)
      by (unfold closeSocket; rewrite Hsvc; reflexivity).
    rewrite H3, closeStreams_empty by (rewrite Hsvc; reflexivity).
    destruct d as [s ws es ts nt n cs wi]. cbn in Hsvc. subst s. reflexivity.
  - rewrite disconnect_timers.
    unfold clearPollingInterval, clearReconnectTimer, clearTimeout.
    intros t Ht. repeat (case_match; cbn in Ht);
      repeat match type of Ht with
             | t ∈ List.filter _ _ =>
                 apply list_elem_of_In, filter_In in Ht as [Ht _];
                 apply list_elem_of_In in Ht
             end; exact Ht.
  - apply disconnect_calls_wire.
  - apply disconnect_calls_wire.
Qed.

Lemma closeStreams_streams (w : world) (i : nat) :
  streams (closeStreams w) !! i =
  (fun e => if decide (registered (sseConnections (svc w)) i)
            then closed_stream e else e) <$> streams w !! i.
Proof.
  unfold closeStreams. revert i.
  pose (P := fun (r : world) (m : gmap string nat) =>
               forall i : nat,
                 streams r !! i =
                 (fun e => if decide (registered m i) then closed_stream e else e)
                   <$> streams w !! i).
  apply (map_fold_weak_ind P); unfold P; clear P.
  - intros i. destruct (streams w !! i) as [e|]; cbn; [|reflexivity].
    destruct (decide (registered ∅ i)) as [H|_]; [|reflexivity].
    exfalso. revert H. apply map_Exists_empty.
  - intros h id m r Hm IH i.
    change (streams (EventSource_close id r)) with (alter closed_stream id (streams r)).
    destruct (decide (id = i)) as [->|Hne].
    + rewrite list_lookup_alter_eq, IH.
      destruct (streams w !! i) as [e|]; cbn; [|reflexivity].
      destruct (decide (registered (<[h:=i]> m) i)) as [_|Hn].
      * destruct (decide (registered m i)); reflexivity.
      * exfalso. apply Hn, map_Exists_insert; [exact Hm|left; reflexivity].
    + rewrite list_lookup_alter_ne by exact Hne. rewrite IH.
      destruct (streams w !! i) as [e|]; cbn; [|reflexivity].
      destruct (decide (registered m i)) as [H|H],
               (decide (registered (<[h:=id]> m) i)) as [H'|H'];
        try reflexivity; exfalso.
      * apply H', map_Exists_insert; [exact Hm|right; exact H].
      * apply map_Exists_insert in H' as [Heq|H']; [congruence|contradiction|exact Hm].
Qed.

Lemma disconnect_streams (w : world) (i : nat) :
  streams (disconnect w) !! i =
  (fun e => if decide (registered (sseConnections (svc w)) i)
            then closed_stream e else e) <$> streams w !! i.
Proof.
  unfold disconnect. cbn. rewrite closeStreams_streams.
  assert (H : sseConnections
                (svc (closeSocket (clearPollingInterval (clearReconnectTimer w))))
              = sseConnections (svc w) /\
              streams (closeSocket (clearPollingInterval (clearReconnectTimer w)))
              = streams w).
  { unfold closeSocket, clearPollingInterval, clearReconnectTimer.
    repeat (case_match; cbn); split; reflexivity. }
  destruct H as [-> ->]. reflexivity.
Qed.

(** X10: [disconnect] closes every stream that is the entry of a topic in
    [sseConnections]: such a stream raises no open, message or error event
    afterwards.  A stream that is in no entry is left as it is. *)
Theorem disconnect_closes_registered_streams (env : environment) (w : world)
  (id : nat) (e : EventSource) :
  streams w !! id = Some e ->
  (registered (sseConnections (svc w)) id ->
   streams (disconnect w) !! id = Some (closed_stream e) /\
   step env (disconnect w) (StreamOpen id) = None /\
   (forall raw, step env (disconnect w) (StreamMessage id raw) = None) /\
   (forall failed, step env (disconnect w) (StreamError id failed) = None)) /\
  (~ registered (sseConnections (svc w)) id ->
   streams (disconnect w) !! id = Some e).
Proof.
  intros He. pose proof (disconnect_streams w id) as Hd. rewrite He in Hd.
  change (streams (disconnect w) !! id =
          Some (if decide (registered (sseConnections (svc w)) id)
                then closed_stream e else e)) in Hd.
  split; intros Hr.
  - rewrite decide_True in Hd by exact Hr.
    split; [exact Hd|]. cbn [step]. rewrite Hd. cbn. repeat split.
  - rewrite decide_False in Hd by exact Hr. exact Hd.
Qed.

Lemma disconnect_closes_registered_streams_witness :
  registered (sseConnections (svc w_stream_7_open)) 0 /\
  streams (disconnect w_stream_7_open) !! 0%nat
    = Some (closed_stream stream_7_open) /\
  step production (disconnect w_stream_7_open) (StreamOpen 0) = None.
Proof.
  assert (Hr : registered (sseConnections (svc w_stream_7_open)) 0).
  { exists "7", 0%nat. split; [vm_compute|]; reflexivity. }
  assert (He : streams w_stream_7_open !! 0%nat = Some stream_7_open)
    by (vm_compute; reflexivity).
  destruct (proj1 (disconnect_closes_registered_streams production
                     w_stream_7_open 0 stream_7_open He) Hr)
    as (H1 & H2 & _).
  split; [exact Hr|]. split; [exact H1|exact H2].
Defined.

Lemma calls_after_step (env : environment) (w w' : world) (e : event) :
  (forall k, listeners_of k w = []) ->
  step env w e = Some w' ->
  calls w' = calls w.
Proof.
  intros Hl Hs.
  assert (Hm : forall raw, calls (onmessage raw w) = calls w).
  { intros raw. unfold onmessage. repeat case_match; try reflexivity; cbn;
      match goal with
      | H : eventListeners (svc w) !! ?k = Some ?l |- _ =>
          specialize (Hl k); unfold listeners_of in Hl; rewrite H in Hl;
          cbn in Hl; subst l
      end; reflexivity. }
  destruct (disconnect_or_not e) as [->|Hd].
  { injection Hs as <-. apply disconnect_calls_wire. }
  destruct e; cbn [step] in Hs; try congruence;
    try (invert_step Hs; apply Hm);
    clear Hm Hl;
    destruct w as [[so ic el ra rt pi sc us] ws es ts nt n cs wi];
    invert_step Hs;
    unfold onRoomUpdate, offRoomUpdate, onActivityUpdate, offActivityUpdate,
      on, off, addListener, removeListener, run_task;
    frame.
Qed.

Lemma listeners_empty_after_step (env : environment) (w w' : world) (e : event) :
  (forall k, listeners_of k w = []) ->
  is_subscribe e = false ->
  step env w e = Some w' ->
  forall k, listeners_of k w' = [].
Proof.
  intros Hl He Hs k.
  destruct (disconnect_or_not e) as [->|Hd].
  { injection Hs as <-. unfold listeners_of. rewrite disconnect_svc. reflexivity. }
  rewrite (step_listeners env k w w' e Hs Hd), Hl.
  destruct e; try discriminate; cbn; try reflexivity;
    destruct (String.eqb _ k); try reflexivity; destruct cb; reflexivity.
Qed.

(** X11: after a call of [disconnect] from outside a dispatch, as the
    calls of the model are, and as long as no listener is subscribed again,
    no event of any transport, no timer and no other call invokes a
    listener: the log of invocations stays as it was before the call.  (A
    listener that calls [disconnect] while the loop over its list is
    running is outside the model; that loop goes on over the array it
    holds.) *)
Theorem no_listener_runs_after_disconnect (env : environment) (w w' : world)
  (es : list event) :
  forallb (fun e => negb (is_subscribe e)) es = true ->
  run env (disconnect w) es = Some w' ->
  calls w' = calls w.
Proof.
  intros Hes Hr.
  assert (H : forall es w0 w1,
             (forall k, listeners_of k w0 = []) ->
             forallb (fun e => negb (is_subscribe e)) es = true ->
             run env w0 es = Some w1 -> calls w1 = calls w0).
  { clear. induction es as [|e es IH]; intros w0 w1 Hl Hes Hr; cbn in Hr.
    - injection Hr as <-. reflexivity.
    - cbn in Hes. apply andb_true_iff in Hes as [He Hes].
      apply negb_true_iff in He.
      destruct (step env w0 e) as [w2|] eqn:Hs; [|discriminate].
      rewrite (IH w2 w1 (listeners_empty_after_step env w0 w2 e Hl He Hs) Hes Hr).
      apply (calls_after_step env w0 w2 e Hl Hs). }
  rewrite (H es (disconnect w) w'); [| |exact Hes|exact Hr].
  - apply disconnect_calls_wire.
  - intros k. unfold listeners_of. rewrite disconnect_svc. reflexivity.
Qed.

Lemma no_listener_runs_after_disconnect_witness :
  calls (after development
           (orphan_socket_open ++ [Disconnect; SocketMessage 0 occupied_frame]))
  = calls (after development orphan_socket_open).
Proof.
  apply (no_listener_runs_after_disconnect development
           (after development orphan_socket_open) _
           [SocketMessage 0 occupied_frame]);
    vm_compute; reflexivity.
Defined.

(** ** The streams behind [sseConnections] *)

Lemma sse_entries_live_same (env : environment) (w w' : world) :
  same_streams w w' -> sse_entries_live env w -> sse_entries_live env w'.
Proof.
  intros [Hs Hc] HI h id. rewrite Hs, Hc. apply HI.
Qed.

Lemma same_streams_trans (w1 w2 w3 : world) :
  same_streams w1 w2 -> same_streams w2 w3 -> same_streams w1 w3.
Proof. intros [H1 H2] [H3 H4]. split; congruence. Qed.

Lemma connectSSE_entries_live (env : environment) (hotelId : string) (w : world) :
  sse_entries_live env w -> sse_entries_live env (connectSSE env hotelId w).
Proof.
  intros HI. unfold connectSSE.
  destruct (sseConnections (svc w) !! hotelId) eqn:E; [exact HI|].
  destruct (EventSource_available env); [|exact HI].
  intros h id. cbn. intros Hl.
  destruct (decide (hotelId = h)) as [->|Hne].
  - rewrite lookup_insert_eq in Hl. injection Hl as <-.
    eexists. split; [apply list_lookup_middle; reflexivity|].
    cbn. repeat split. discriminate.
  - rewrite lookup_insert_ne in Hl by exact Hne.
    destruct (HI h id Hl) as (e & He & H). exists e. split; [|exact H].
    apply lookup_app_l_Some. exact He.
Qed.

Lemma same_streams_step (env : environment) (w w' : world) (e : event) :
  step env w e = Some w' ->
  match e with
  | Disconnect | OnRoomUpdate _ _ | OnActivityUpdate _ _ | StreamOpen _
  | StreamError _ _ | TimerFires _ => True
  | _ => same_streams w w'
  end.
Proof.
  intros Hs. unfold same_streams.
  destruct e; try exact I; cbn [step] in Hs;
    destruct w as [[so ic el ra rt pi sc us] ws es ts nt n cs wi];
    invert_step Hs; unfold_calls; frame; split; reflexivity.
Qed.

Lemma addListener_same_streams (key : string) (cb : callback) (w : world) :
  same_streams w (addListener key cb w).
Proof.
  unfold same_streams, addListener. destruct (eventListeners (svc w) !! key);
    split; reflexivity.
Qed.

Lemma connect_same_streams (env : environment) (w : world) :
  same_streams w (connect env w).
Proof. exact (same_streams_step env w _ Connect eq_refl). Qed.

Lemma subscribe_entries_live (env : environment) (key hotelId : string)
  (cb : callback) (w : world) :
  sse_entries_live env w ->
  sse_entries_live env
    (let w := addListener key cb w in
     if useSSE (svc w) then connectSSE env hotelId w
     else match socket (svc w) with
          | None => connect env w
          | Some _ => w
          end).
Proof.
  intros HI. cbv zeta.
  pose proof (sse_entries_live_same env _ _ (addListener_same_streams key cb w) HI)
    as HA.
  destruct (useSSE (svc (addListener key cb w))).
  - apply connectSSE_entries_live, HA.
  - destruct (socket (svc (addListener key cb w))); [exact HA|].
    apply (sse_entries_live_same env _ _ (connect_same_streams env _) HA).
Qed.

Lemma sse_entries_live_step (env : environment) (w w' : world) (e : event) :
  sse_entries_live env w -> step env w e = Some w' -> sse_entries_live env w'.
Proof.
  intros HI Hs.
  pose proof (same_streams_step env w w' e Hs) as Hsame.
  destruct e; try (apply (sse_entries_live_same env w w' Hsame HI)); clear Hsame;
    cbn [step] in Hs.
  - injection Hs as <-. intros h id. rewrite disconnect_svc. cbn.
    rewrite lookup_empty. discriminate.
  - injection Hs as <-. apply subscribe_entries_live, HI.
  - injection Hs as <-. apply subscribe_entries_live, HI.
  - destruct (streams w !! id) as [s|] eqn:Es; [|discriminate].
    destruct (es_state s); try discriminate. injection Hs as <-.
    intros h i Hl. cbn in Hl. destruct (HI h i Hl) as (e & He & Hh & Hu & Hc).
    cbn. destruct (decide (id = i)) as [->|Hne].
    + rewrite list_lookup_alter_eq, He. cbn. eexists. split; [reflexivity|].
      cbn. repeat split; try assumption. discriminate.
    + rewrite list_lookup_alter_ne by exact Hne. exists e. repeat split; assumption.
  - destruct (streams w !! id) as [s|] eqn:Es; [|discriminate].
    assert (Hw : exists w1, w' = w1 /\
              streams w1 = alter (fun e =>
                {| es_url := es_url e; es_hotelId := es_hotelId e;
                   es_state := if failed then ES_CLOSED else ES_CONNECTING |})
                id (streams w) /\
              sseConnections (svc w1) = delete (es_hotelId s) (sseConnections (svc w))).
    { exists w'. split; [reflexivity|].
      destruct w as [[so ic el ra rt pi sc us] ws es ts nt n cs wi].
      cbn in Es. invert_step Hs; unfold eventSource_onerror; frame;
        split; reflexivity. }
    destruct Hw as (w1 & -> & Hst & Hc). intros h i. rewrite Hst, Hc. intros Hl.
    apply lookup_delete_Some in Hl as [Hne Hl].
    destruct (HI h i Hl) as (e & He & Hh & Hu & Hcl).
    assert (Hi : id <> i) by (intros ->; congruence).
    rewrite list_lookup_alter_ne by exact Hi. exists e. repeat split; assumption.
  - destruct (find_timer id w) as [t|]; [|discriminate].
    destruct (timer_due t <=? now w); [|discriminate]. injection Hs as <-.
    assert (Hc : sse_entries_live env (clearTimeout id w))
      by (apply (sse_entries_live_same env w); [split; reflexivity|exact HI]).
    generalize dependent (clearTimeout id w). intros w0 H0.
    destruct (timer_task t); cbn [run_task].
    + apply (sse_entries_live_same env w0); [|exact H0].
      destruct w0 as [[so ic el ra rt pi sc us] ws es ts nt n cs wi].
      unfold same_streams. frame; split; reflexivity.
    + apply (sse_entries_live_same env w0); [|exact H0].
      destruct w0 as [[so ic el ra rt pi sc us] ws es ts nt n cs wi].
      unfold same_streams. frame; split; reflexivity.
    + unfold retrySSE_fired. destruct (useSSE (svc w0)); [|exact H0].
      destruct (sseConnections (svc w0) !! hotelId); [exact H0|].
      cbv zeta.
      match goal with
      | |- context [if ?b then _ else _] => destruct b
      end.
      * apply connectSSE_entries_live.
        apply (sse_entries_live_same env w0); [split; reflexivity|exact H0].
      * apply (sse_entries_live_same env w0); [split; reflexivity|exact H0].
Qed.

Lemma sse_entries_live_run (env : environment) (es : list event) (w w' : world) :
  sse_entries_live env w -> run env w es = Some w' -> sse_entries_live env w'.
Proof.
  revert w. induction es as [|e es IH]; intros w HI Hr; cbn in Hr.
  - injection Hr as <-. exact HI.
  - destruct (step env w e) as [w1|] eqn:Hs; [|discriminate].
    apply (IH w1); [|exact Hr].
    apply (sse_entries_live_step env w w1 e HI Hs).
Qed.

Lemma sse_entries_live_initial (env : environment) : sse_entries_live env initial.
Proof. intros h id Hl. cbn in Hl. rewrite lookup_empty in Hl. discriminate. Qed.

(** X12: in every state the service can reach, each entry of
    [sseConnections] names a stream that exists, was opened for the topic
    of the entry with the URL of that topic, and is not closed. *)
Theorem registered_streams_are_live (env : environment) (w : world)
  (h : string) (id : nat) :
  reachable env w ->
  sseConnections (svc w) !! h = Some id ->
  exists e, streams w !! id = Some e /\ es_hotelId e = h /\
            es_url e = sseUrl_of env h /\ es_state e <> ES_CLOSED.
Proof.
  intros [es Hr]. revert h id. change (sse_entries_live env w).
  apply (sse_entries_live_run env es initial w (sse_entries_live_initial env) Hr).
Qed.

Lemma registered_streams_are_live_witness :
  exists e, streams w_stream_7_open !! 0%nat = Some e /\ es_hotelId e = "7" /\
            es_url e = sseUrl_of production "7" /\ es_state e <> ES_CLOSED.
Proof.
  apply (registered_streams_are_live production w_stream_7_open "7" 0).
  - exists [Connect; OnRoomUpdate "7" cbA; StreamOpen 0]. vm_compute. reflexivity.
  - vm_compute. reflexivity.
Defined.

(** ** Timeouts and open events of a WebSocket *)

Lemma find_timer_switchToSSE (id : nat) (w : world) :
  find_timer id w = None -> find_timer id (switchToSSE w) = None.
Proof.
  intros H.
  assert (Ht : timers (switchToSSE w) = timers w \/
               exists r, timers (switchToSSE w) = timers (clearTimeout r w)).
  { unfold switchToSSE, closeSocket, clearReconnectTimer.
    destruct w as [[so ic el ra rt pi sc us] ws es ts nt n cs wi].
    destruct so, rt; cbn; eauto. }
  destruct Ht as [Ht|[r Ht]]; unfold find_timer; rewrite Ht; [exact H|].
  change (find_timer id (clearTimeout r w) = None).
  rewrite find_timer_clearTimeout. destruct (Nat.eqb id r); [reflexivity|exact H].
Qed.

(** X13: a connection timeout that fires is consumed, and it looks at the
    socket that is the handle at that moment, whichever socket it was
    scheduled for: when that socket is still connecting it is closed and
    the service enters fallback mode with the handle cleared; in every other
    case (no handle, or a handle that is open, closing or closed) the
    timeout changes nothing else. *)
Theorem connection_timeout_acts_on_current_handle (env : environment)
  (w w' : world) (id : nat) (t : timer) :
  find_timer id w = Some t ->
  timer_task t = ConnectionTimeout ->
  step env w (TimerFires id) = Some w' ->
  find_timer id w' = None /\
  (forall cur s,
     socket (svc w) = Some cur -> sockets w !! cur = Some s ->
     ws_state s = WS_CONNECTING ->
     useSSE (svc w') = true /\ isConnected (svc w') = false /\
     socket (svc w') = None /\
     ws_state <$> sockets w' !! cur = Some WS_CLOSING) /\
  ((forall cur s,
      socket (svc w) = Some cur -> sockets w !! cur = Some s ->
      ws_state s <> WS_CONNECTING) ->
   w' = clearTimeout id w).
Proof.
  intros Hf Ht Hs. cbn [step] in Hs. rewrite Hf in Hs.
  destruct (timer_due t <=? now w); [|discriminate].
  injection Hs as <-. rewrite Ht. cbn [run_task].
  assert (H0 : find_timer id (clearTimeout id w) = None)
    by (rewrite find_timer_clearTimeout, Nat.eqb_refl; reflexivity).
  unfold connectionTimeout_fired.
  change (socket (svc (clearTimeout id w))) with (socket (svc w)).
  change (sockets (clearTimeout id w)) with (sockets w).
  destruct (socket (svc w)) as [cur|] eqn:Hso.
  2: { split; [exact H0|]. split; [discriminate|reflexivity]. }
  destruct (sockets w !! cur) as [s|] eqn:Hc.
  2: { split; [exact H0|]. split; [|reflexivity].
       intros cur' s' [= <-]. rewrite Hc. discriminate. }
  destruct (ws_state s) eqn:Hst;
    try (split; [exact H0|]; split; [|reflexivity];
         intros cur' s' [= <-]; rewrite Hc; intros [= <-]; congruence).
  split; [apply find_timer_switchToSSE; exact H0|]. split.
  - intros cur' s' [= <-] _ _. rewrite switchToSSE_svc. cbn.
    repeat split.
    destruct w as [[so ic el ra rt pi sc us] ws es ts nt n cs wi].
    cbn in Hso, Hc. subst so.
    unfold switchToSSE, closeSocket, clearReconnectTimer, WebSocket_close,
      clearTimeout. cbn.
    destruct rt; cbn; rewrite !list_lookup_alter_eq, Hc; cbn; rewrite Hst;
      reflexivity.
  - intros H. exfalso. exact (H cur s eq_refl Hc Hst).
Qed.

Lemma connection_timeout_acts_on_current_handle_witness :
  find_timer 1 w_timed_out = None /\
  useSSE (svc w_timed_out) = true /\
  ws_state <$> sockets w_timed_out !! 0%nat = Some WS_CLOSING.
Proof.
  assert (Hf : find_timer 1 w_timeout_due = Some connection_timer_1)
    by (vm_compute; reflexivity).
  assert (Hs : step development w_timeout_due (TimerFires 1) = Some w_timed_out)
    by (vm_compute; reflexivity).
  destruct (connection_timeout_acts_on_current_handle development
              w_timeout_due w_timed_out 1 connection_timer_1 Hf eq_refl Hs)
    as (H1 & H2 & _).
  destruct (H2 0%nat connecting_socket_0) as (Hu & _ & _ & Hc);
    try (vm_compute; reflexivity).
  repeat split; assumption.
Defined.

(** X14: the open event of a WebSocket, the handle or not, marks the
    service connected, leaves fallback mode, resets the counter and cancels
    the connection timeout of that socket and the stored reconnect timer.
    It leaves the handle, the registry, the streams and [sseConnections] as
    they are: streams opened in fallback mode stay open. *)
Theorem socket_open_marks_connected (env : environment) (w w' : world)
  (id : nat) (s : WebSocket) :
  sockets w !! id = Some s ->
  step env w (SocketOpen id) = Some w' ->
  isConnected (svc w') = true /\
  useSSE (svc w') = false /\
  reconnectAttempts (svc w') = 0%nat /\
  reconnectTimer (svc w') = None /\
  find_timer (ws_connectionTimeout s) w' = None /\
  (forall r, reconnectTimer (svc w) = Some r -> find_timer r w' = None) /\
  socket (svc w') = socket (svc w) /\
  eventListeners (svc w') = eventListeners (svc w) /\
  same_streams w w'.
Proof.
  intros Hs. cbn [step]. rewrite Hs.
  destruct (ws_state s); try discriminate. intros [= <-].
  generalize (ws_connectionTimeout s). intros t. clear Hs s.
  unfold socket_onopen, clearReconnectTimer.
  set (w1 := clearTimeout t _).
  assert (H1 : find_timer t w1 = None)
    by (unfold w1; rewrite find_timer_clearTimeout, Nat.eqb_refl; reflexivity).
  assert (Hsvc : svc w1 =
                 {| socket := socket (svc w); isConnected := true;
                    eventListeners := eventListeners (svc w);
                    reconnectAttempts := 0%nat;
                    reconnectTimer := reconnectTimer (svc w);
                    pollingInterval := pollingInterval (svc w);
                    sseConnections := sseConnections (svc w);
                    useSSE := false |}) by reflexivity.
  assert (Hst : streams w1 = streams w) by reflexivity.
  clearbody w1. cbv zeta. rewrite Hsvc. cbn [reconnectTimer].
  destruct (reconnectTimer (svc w)) as [r|] eqn:Hr.
  - cbn. rewrite Hsvc. cbn.
    repeat split; try assumption.
    + change (find_timer t (clearTimeout r w1) = None).
      rewrite find_timer_clearTimeout. destruct (Nat.eqb t r); [reflexivity|exact H1].
    + intros r' [= <-]. change (find_timer r (clearTimeout r w1) = None).
      rewrite find_timer_clearTimeout, Nat.eqb_refl. reflexivity.
    + cbn. rewrite Hsvc. reflexivity.
  - rewrite Hsvc. cbn.
    repeat split; try assumption; try discriminate; rewrite Hsvc; reflexivity.
Qed.

Lemma socket_open_marks_connected_witness :
  isConnected (svc w_orphan_opened) = true /\
  socket (svc w_orphan_opened) = Some 1%nat /\
  ws_state <$> sockets w_orphan_opened !! 1%nat = Some WS_CONNECTING.
Proof.
  assert (Hl : sockets w_two_sockets !! 0%nat = Some connecting_socket_0)
    by (vm_compute; reflexivity).
  assert (Hs : step development w_two_sockets (SocketOpen 0) = Some w_orphan_opened)
    by (vm_compute; reflexivity).
  destruct (socket_open_marks_connected development w_two_sockets
              w_orphan_opened 0 connecting_socket_0 Hl Hs)
    as (H1 & _ & _ & _ & _ & _ & H2 & _).
  split; [exact H1|]. split; [rewrite H2|]; vm_compute; reflexivity.
Defined.

(** ** The URL of the WebSocket *)

Lemma replace_absent (pat rep s : string) :
  occurs pat s = false -> replace pat rep s = s.
Proof.
  induction s as [|c s IH]; cbn [occurs replace].
  - destruct (JSON.expect pat ""); [discriminate|reflexivity].
  - destruct (JSON.expect pat (String c s)); [discriminate|].
    intros H. rewrite (IH H). reflexivity.
Qed.

Lemma expect_app (pat rest : string) :
  JSON.expect pat (pat +:+ rest) = Some rest.
Proof.
  induction pat as [|a pat IH].
  - destruct rest; reflexivity.
  - change (JSON.expect (String a pat) (String a pat +:+ rest))
      with (if Ascii.eqb a a then JSON.expect pat (pat +:+ rest) else None).
    rewrite Ascii.eqb_refl. exact IH.
Qed.

Lemma replace_prefix (pat rep rest : string) :
  replace pat rep (pat +:+ rest) = rep +:+ rest.
Proof.
  assert (H : forall s,
             replace pat rep s =
             match JSON.expect pat s with
             | Some r => rep +:+ r
             | None =>
                 match s with
                 | EmptyString => EmptyString
                 | String c s' => String c (replace pat rep s')
                 end
             end) by (intros s; destruct s; reflexivity).
  rewrite H, expect_app. reflexivity.
Qed.

(** X15: the URL of the WebSocket.  With the variable unset it is the
    deployed backend over [wss].  A base URL that starts with [https://]
    gives [wss://], one that starts with [http://] gives [ws://], each with
    [/ws] appended, provided the other scheme does not occur later in the
    URL (each [replace] acts on the first occurrence anywhere).  A base URL
    in which neither scheme occurs is used as it is. *)
Theorem wsUrl_scheme (env : environment) (rest : string) :
  (NEXT_PUBLIC_SOCKET_URL env = "" ->
   wsUrl_of env = "wss://hotel-backend-5kcn.onrender.com/ws") /\
  (SOCKET_URL env = "https://" +:+ rest -> occurs "http://" rest = false ->
   wsUrl_of env = "wss://" +:+ rest +:+ "/ws") /\
  (SOCKET_URL env = "http://" +:+ rest -> occurs "https://" rest = false ->
   wsUrl_of env = "ws://" +:+ rest +:+ "/ws") /\
  (occurs "https://" (SOCKET_URL env) = false ->
   occurs "http://" (SOCKET_URL env) = false ->
   wsUrl_of env = SOCKET_URL env +:+ "/ws").
Proof.
  unfold wsUrl_of. repeat split.
  - intros H. unfold SOCKET_URL, getSocketBaseUrl. rewrite H. reflexivity.
  - intros -> H. rewrite replace_prefix.
    rewrite (replace_absent "http://" "ws://" ("wss://" +:+ rest)) by exact H.
    reflexivity.
  - intros -> H.
    rewrite (replace_absent "https://" "wss://" ("http://" +:+ rest)) by exact H.
    rewrite replace_prefix. reflexivity.
  - intros H1 H2. rewrite (replace_absent _ _ _ H1), (replace_absent _ _ _ H2).
    reflexivity.
Qed.

Lemma wsUrl_scheme_witness :
  wsUrl_of
    {| NODE_ENV := "development"; NEXT_PUBLIC_SOCKET_URL := "http://localhost:5000";
       WebSocket_available := true; EventSource_available := true |}
  = "ws://localhost:5000/ws".
Proof.
  apply (proj1 (proj2 (proj2 (wsUrl_scheme
           {| NODE_ENV := "development";
              NEXT_PUBLIC_SOCKET_URL := "http://localhost:5000";
              WebSocket_available := true; EventSource_available := true |}
           "localhost:5000")))); vm_compute; reflexivity.
Defined.

(** ** The subscriptions of [useHotelData] *)

Lemma removeListener_frame (key : string) (cb : option callback) (w : world) :
  sockets (removeListener key cb w) = sockets w /\
  streams (removeListener key cb w) = streams w /\
  timers (removeListener key cb w) = timers w /\
  sseConnections (svc (removeListener key cb w)) = sseConnections (svc w) /\
  useSSE (svc (removeListener key cb w)) = useSSE (svc w) /\
  socket (svc (removeListener key cb w)) = socket (svc w) /\
  isConnected (svc (removeListener key cb w)) = isConnected (svc w) /\
  calls (removeListener key cb w) = calls w /\
  wire (removeListener key cb w) = wire w.
Proof.
  unfold removeListener. destruct cb as [cb|]; [|repeat split].
  destruct (eventListeners (svc w) !! key) as [l|]; [|repeat split].
  destruct (indexOf l cb >? -1); repeat split.
Qed.

Lemma run_app (env : environment) (es1 es2 : list event) (w w1 w2 : world) :
  run env w es1 = Some w1 -> run env w1 es2 = Some w2 ->
  run env w (es1 ++ es2) = Some w2.
Proof.
  revert w. induction es1 as [|e es1 IH]; intros w H1 H2; cbn in *.
  - injection H1 as ->. exact H2.
  - destruct (step env w e) as [w'|]; [|discriminate]. apply (IH w' H1 H2).
Qed.

Lemma effect_trace (env : environment) (hotelId : string) (hR hA : callback)
  (w : world) :
  hotelId <> "" ->
  run env w [Connect; OnRoomUpdate hotelId hR; OnActivityUpdate hotelId hA]
  = Some (useHotelData_effect env hotelId hR hA w).
Proof.
  intros Hh. unfold useHotelData_effect.
  destruct (String.eqb_spec hotelId ""); [contradiction|]. reflexivity.
Qed.

Lemma cleanup_trace (env : environment) (hotelId : string) (hR hA : callback)
  (w : world) :
  hotelId <> "" ->
  run env w [OffRoomUpdate hotelId (Some hR); OffActivityUpdate hotelId (Some hA)]
  = Some (useHotelData_cleanup hotelId hR hA w).
Proof.
  intros Hh. unfold useHotelData_cleanup.
  destruct (String.eqb_spec hotelId ""); [contradiction|]. reflexivity.
Qed.

(** A subscription to a topic in fallback mode opens a stream for the topic
    exactly when the topic has no entry. *)
Lemma subscribe_in_fallback_mode (env : environment) (key hotelId : string)
  (cb : callback) (w : world) :
  EventSource_available env = true ->
  useSSE (svc w) = true ->
  exists w',
    (let w := addListener key cb w in
     if useSSE (svc w) then connectSSE env hotelId w
     else match socket (svc w) with
          | None => connect env w
          | Some _ => w
          end) = w' /\
    useSSE (svc w') = true /\
    is_Some (sseConnections (svc w') !! hotelId) /\
    streams w' =
      streams w ++
      match sseConnections (svc w) !! hotelId with
      | Some _ => []
      | None => [{| es_url := sseUrl_of env hotelId; es_hotelId := hotelId;
                    es_state := ES_CONNECTING |}]
      end.
Proof.
  intros Ha Hu. eexists. split; [reflexivity|]. cbv zeta.
  destruct (addListener_same_streams key cb w) as [Hs Hc].
  assert (Hu' : useSSE (svc (addListener key cb w)) = true).
  { unfold addListener. destruct (eventListeners (svc w) !! key); exact Hu. }
  rewrite Hu'. unfold connectSSE. rewrite Hc, Ha.
  destruct (sseConnections (svc w) !! hotelId) as [id|] eqn:E.
  - split; [exact Hu'|]. split; [rewrite Hc, E; eexists; reflexivity|].
    rewrite app_nil_r. exact Hs.
  - cbn -[addListener]. split; [exact Hu'|]. split.
    + rewrite lookup_insert_eq. eexists. reflexivity.
    + rewrite Hs. reflexivity.
Qed.

Lemma topic_keys_differ (hotelId : string) :
  "roomUpdate:" +:+ hotelId <> "activityUpdate:" +:+ hotelId.
Proof. intros H. discriminate H. Qed.

(** X16: in production, with [EventSource] available, the effect of
    [useHotelData] for a non-empty hotel id, run in any state the service
    can reach, leaves the service in fallback mode with a stream of that
    hotel registered and not closed; it opens that stream exactly when the
    hotel has no entry in [sseConnections].  The cleanup that the effect
    returns, run after any events that followed the effect, closes
    nothing: sockets, streams, timers, [sseConnections], the flags, the
    handle, the log and the wire are as they were before it, and of the
    lists of listeners only those of the two keys of the hotel change, each
    by the removal of the first registration of its handler.  The state
    after the cleanup is again one the service can reach, so that the first
    part describes the next run of the effect: it opens a further stream
    when an error event has taken the entry of the hotel away in between,
    whether or not the earlier stream is still open. *)
Theorem unmount_leaves_the_stream_open (env : environment) (hotelId : string)
  (hR hA : callback) (w w1 : world) (es : list event) :
  IS_PRODUCTION env = true -> EventSource_available env = true ->
  reachable env w -> hotelId <> "" ->
  run env (useHotelData_effect env hotelId hR hA w) es = Some w1 ->
  (useSSE (svc (useHotelData_effect env hotelId hR hA w)) = true /\
   streams (useHotelData_effect env hotelId hR hA w) =
     streams w ++
     match sseConnections (svc w) !! hotelId with
     | Some _ => []
     | None => [{| es_url := sseUrl_of env hotelId; es_hotelId := hotelId;
                   es_state := ES_CONNECTING |}]
     end /\
   exists id e,
     sseConnections (svc (useHotelData_effect env hotelId hR hA w)) !! hotelId
     = Some id /\
     streams (useHotelData_effect env hotelId hR hA w) !! id = Some e /\
     es_hotelId e = hotelId /\ es_state e <> ES_CLOSED) /\
  (sockets (useHotelData_cleanup hotelId hR hA w1) = sockets w1 /\
   streams (useHotelData_cleanup hotelId hR hA w1) = streams w1 /\
   timers (useHotelData_cleanup hotelId hR hA w1) = timers w1 /\
   sseConnections (svc (useHotelData_cleanup hotelId hR hA w1))
   = sseConnections (svc w1) /\
   useSSE (svc (useHotelData_cleanup hotelId hR hA w1)) = useSSE (svc w1) /\
   socket (svc (useHotelData_cleanup hotelId hR hA w1)) = socket (svc w1) /\
   isConnected (svc (useHotelData_cleanup hotelId hR hA w1))
   = isConnected (svc w1) /\
   calls (useHotelData_cleanup hotelId hR hA w1) = calls w1 /\
   wire (useHotelData_cleanup hotelId hR hA w1) = wire w1) /\
  (forall key,
     listeners_of key (useHotelData_cleanup hotelId hR hA w1) =
     if String.eqb ("roomUpdate:" +:+ hotelId) key
     then remove_first hR (listeners_of key w1)
     else if String.eqb ("activityUpdate:" +:+ hotelId) key
          then remove_first hA (listeners_of key w1)
          else listeners_of key w1) /\
  reachable env (useHotelData_cleanup hotelId hR hA w1).
Proof.
  intros Hp Ha [es0 Hr0] Hh Hes.
  pose proof (effect_trace env hotelId hR hA w Hh) as Htr.
  pose proof (run_app env _ _ _ _ _ Hr0 Htr) as Hr1.
  pose proof (run_no_websocket env _ _ _ Hp initial_no_websocket Hr0) as Hn.
  pose proof (sse_entries_live_run env _ _ _ (sse_entries_live_initial env) Hr1)
    as Hl1.
  assert (Hc : useSSE (svc (connect env w)) = true).
  { unfold connect. destruct Hn as (_ & -> & _). rewrite Hp.
    destruct (useSSE (svc w)) eqn:Hu; cbn; [exact Hu|].
    rewrite switchToSSE_svc. reflexivity. }
  destruct (connect_same_streams env w) as [Hcs Hcc].
  destruct (subscribe_in_fallback_mode env ("roomUpdate:" +:+ hotelId) hotelId hR
              (connect env w) Ha Hc) as (m1 & E1 & Hu1 & Hs1 & Hst1).
  destruct (subscribe_in_fallback_mode env ("activityUpdate:" +:+ hotelId) hotelId
              hA m1 Ha Hu1) as (m2 & E2 & Hu2 & Hs2 & Hst2).
  assert (Hw : useHotelData_effect env hotelId hR hA w = m2).
  { unfold useHotelData_effect.
    destruct (String.eqb_spec hotelId ""); [contradiction|].
    rewrite <- E2, <- E1. reflexivity. }
  rewrite Hw in *. clear Hw E1 E2.
  split; [|split; [|split]].
  - split; [exact Hu2|]. split.
    + rewrite Hst2. destruct Hs1 as [i ->]. rewrite app_nil_r, Hst1, Hcs, Hcc.
      reflexivity.
    + destruct Hs2 as [id Hid].
      destruct (Hl1 hotelId id Hid) as (e & He & Hh' & _ & Hcl).
      exists id, e. repeat split; assumption.
  - unfold useHotelData_cleanup, offRoomUpdate, offActivityUpdate.
    destruct (String.eqb_spec hotelId ""); [contradiction|]. cbv zeta.
    destruct (removeListener_frame ("activityUpdate:" +:+ hotelId) (Some hA)
                (removeListener ("roomUpdate:" +:+ hotelId) (Some hR) w1))
      as (-> & -> & -> & -> & -> & -> & -> & -> & ->).
    apply removeListener_frame.
  - intros key. unfold useHotelData_cleanup, offRoomUpdate, offActivityUpdate.
    destruct (String.eqb_spec hotelId ""); [contradiction|]. cbv zeta.
    rewrite !removeListener_listeners. cbn [replay_op].
    destruct (String.eqb_spec ("roomUpdate:" +:+ hotelId) key) as [Ek|Ek];
      destruct (String.eqb_spec ("activityUpdate:" +:+ hotelId) key) as [Ek'|Ek'];
      try reflexivity.
    exfalso. apply (topic_keys_differ hotelId). congruence.
  - exists (es0 ++ [Connect; OnRoomUpdate hotelId hR; OnActivityUpdate hotelId hA]
              ++ es
              ++ [OffRoomUpdate hotelId (Some hR);
                  OffActivityUpdate hotelId (Some hA)]).
    apply (run_app env _ _ _ _ _ Hr0).
    apply (run_app env _ _ _ _ _ Htr).
    apply (run_app env _ _ _ _ _ Hes).
    apply cleanup_trace, Hh.
Qed.

Lemma unmount_leaves_the_stream_open_witness :
  streams (useHotelData_cleanup "7" cbA cbB w_mounted_stream_error)
  = streams w_mounted_stream_error /\
  sseConnections (svc (useHotelData_cleanup "7" cbA cbB w_mounted_stream_error))
    !! "7" = None /\
  es_state <$> streams w_mounted_stream_error !! 0%nat = Some ES_CONNECTING /\
  listeners_of "roomUpdate:7"
    (useHotelData_cleanup "7" cbA cbB w_mounted_stream_error) = [].
Proof.
  assert (Hr : reachable production initial) by (exists []; reflexivity).
  assert (Hh : "7" <> "") by discriminate.
  assert (Hes : run production (useHotelData_effect production "7" cbA cbB initial)
                  [StreamOpen 0; StreamError 0 false]
                = Some w_mounted_stream_error) by (vm_compute; reflexivity).
  destruct (unmount_leaves_the_stream_open production "7" cbA cbB initial
              w_mounted_stream_error [StreamOpen 0; StreamError 0 false]
              eq_refl eq_refl Hr Hh Hes)
    as (_ & (_ & Hst & _ & Hc & _) & Hl & _).
  split; [exact Hst|]. split; [rewrite Hc; vm_compute; reflexivity|].
  split; [vm_compute; reflexivity|].
  rewrite (Hl "roomUpdate:7"). vm_compute. reflexivity.
Defined.

(** ** The connected flag after a stream error *)

(** X17: an error event of a stream changes neither [isConnected] nor the
    mode, the handle, the counter, the registry or the sockets, and invokes
    no listener: a service whose only stream has failed and closed still
    reports connected. *)
Theorem stream_error_keeps_connected_flag (env : environment) (w w' : world)
  (id : nat) (failed : bool) (e : EventSource) :
  streams w !! id = Some e ->
  step env w (StreamError id failed) = Some w' ->
  isConnected (svc w') = isConnected (svc w) /\
  useSSE (svc w') = useSSE (svc w) /\
  socket (svc w') = socket (svc w) /\
  reconnectAttempts (svc w') = reconnectAttempts (svc w) /\
  eventListeners (svc w') = eventListeners (svc w) /\
  sockets w' = sockets w /\
  calls w' = calls w.
Proof.
  intros He Hs. cbn [step] in Hs. rewrite He in Hs.
  destruct w as [[so ic el ra rt pi sc us] ws es ts nt n cs wi].
  cbn in He. invert_step Hs; unfold eventSource_onerror; frame;
    repeat split; reflexivity.
Qed.

Lemma stream_error_keeps_connected_flag_witness :
  isConnected (svc w_stream_7_failed) = true /\
  es_state <$> streams w_stream_7_failed !! 0%nat = Some ES_CLOSED /\
  sseConnections (svc w_stream_7_failed) !! "7" = None.
Proof.
  assert (He : streams w_stream_7_open !! 0%nat = Some stream_7_open)
    by (vm_compute; reflexivity).
  assert (Hs : step production w_stream_7_open (StreamError 0 true)
               = Some w_stream_7_failed) by (vm_compute; reflexivity).
  destruct (stream_error_keeps_connected_flag production w_stream_7_open
              w_stream_7_failed 0 true stream_7_open He Hs) as (H1 & _).
  split; [rewrite H1|split]; vm_compute; reflexivity.
Defined.
